(** * Storage Valet edge functions: booking lifecycle, item partitioner,
    completion coordinator, payment idempotency and webhook verification.

    Shallow embedding of the Deno/TypeScript handlers of sv-edge.  Each
    handler is modelled from the point where its request has been parsed
    and its caller authenticated; store reads and writes are explicit
    functions on a [store] record, and every store call that can fail is
    given its outcome by an environment record (the [*_env] records), so
    that the error paths of the source are all reachable. *)

From Stdlib Require Import String Ascii List Bool ZArith QArith Qabs Lia.
Import ListNotations.
Local Open Scope string_scope.
Local Open Scope list_scope.

(* ------------------------------------------------------------------ *)
(** ** Data model *)

(** [action_status] is the Postgres enum of the [actions.status] column
    (verify-schema.sql, PART 5). *)
Inductive action_status :=
| pending_items
| pending_confirmation
| confirmed
| in_progress
| completed
| canceled.

Scheme Equality for action_status.

Definition action_status_to_string (s : action_status) : string :=
  match s with
  | pending_items => "pending_items"
  | pending_confirmation => "pending_confirmation"
  | confirmed => "confirmed"
  | in_progress => "in_progress"
  | completed => "completed"
  | canceled => "canceled"
  end.

(** Item statuses written or read by the handlers ([items.status]). *)
Inductive item_status :=
| home
| in_transit
| stored
| scheduled.

Scheme Equality for item_status.

Inductive service_type := pickup | delivery.

Record item := mkItem {
  item_id : string;
  item_user_id : string;
  item_st : item_status
}.

(** A row of [actions] (a booking). *)
Record action := mkAction {
  action_id : string;
  user_id : string;
  status : action_status;
  service : service_type;
  pickup_item_ids : list string;
  delivery_item_ids : list string
}.

(** Emails handed to the send-email function. *)
Inductive email_type := welcome | pickup_complete | delivery_complete | payment_failed.

Record email := mkEmail {
  email_kind : email_type;
  email_to : string;
  email_item_count : nat
}.

(** The store: the [actions], [items] and [customer_profile] tables, the
    [booking_events] audit log (event types only) and the outbox of
    completion emails.  [actions] is keyed by [action_id] (primary key). *)
Record store := mkStore {
  actions : list action;
  items : list item;
  profiles : list (string * string);   (* user_id, email *)
  audit : list string;
  outbox : list email
}.

(** Responses: HTTP status and the JSON body shapes the handlers return. *)
Inductive body :=
| BError (msg : string)
| BErrorReason (msg reason : string)
| BOk                                   (* { ok: true } *)
| BOkStatus (s : action_status)         (* { ok: true, status } *)
| BOkDuplicate                          (* { ok: true, duplicate: true } *)
| BOkAction (a : action) (npickup ndelivery : nat)  (* item selection *)
| BOkAlreadyCompleted                   (* { ok: true, already_completed: true } *)
| BOkCompleted (a : action) (items_updated : nat).

Record response := mkResponse { code : Z; resp_body : body }.

(* ------------------------------------------------------------------ *)
(** ** Store primitives (supabase-js query builder) *)

Definition mem (x : string) (l : list string) : bool :=
  existsb (String.eqb x) l.

(** [.from('actions').select(..).eq('id', id).single()] *)
Definition find_action (id : string) (st : store) : option action :=
  find (fun a => String.eqb (action_id a) id) (actions st).

(** [.from('actions').update(f).eq('id', id)] plus extra row filter [p]. *)
Definition update_actions (p : action -> bool) (f : action -> action)
    (st : store) : store :=
  {| actions := map (fun a => if p a then f a else a) (actions st);
     items := items st; profiles := profiles st;
     audit := audit st; outbox := outbox st |}.

(** [.from('items').update({status: s}).in('id', ids)] with an extra row
    filter [p] (e.g. [.eq('user_id', userId)]). *)
Definition set_items_status (p : item -> bool) (ids : list string)
    (s : item_status) (st : store) : store :=
  {| actions := actions st;
     items := map (fun i => if mem (item_id i) ids && p i
                            then mkItem (item_id i) (item_user_id i) s
                            else i) (items st);
     profiles := profiles st; audit := audit st; outbox := outbox st |}.

(** [.from('items').select('id, status').in('id', ids)] *)
Definition fetch_items (ids : list string) (st : store) : list item :=
  filter (fun i => mem (item_id i) ids) (items st).

(** [rpc('log_booking_event', ..)]: best-effort audit append. *)
Definition log_booking_event (ev : string) (st : store) : store :=
  {| actions := actions st; items := items st; profiles := profiles st;
     audit := audit st ++ [ev]; outbox := outbox st |}.

Definition item_status_of (id : string) (st : store) : option item_status :=
  option_map item_st (find (fun i => String.eqb (item_id i) id) (items st)).

(* ------------------------------------------------------------------ *)
(** ** Transition validator (update-booking-items) *)

(** [VALID_TRANSITIONS]: the record literal is total on the enum. *)
Definition VALID_TRANSITIONS (from : action_status) : list action_status :=
  match from with
  | pending_items => [pending_confirmation; canceled]
  | pending_confirmation => [confirmed; canceled]
  | confirmed => [in_progress; canceled]
  | in_progress => [completed; canceled]
  | completed => []
  | canceled => []
  end.

(** [VALID_TRANSITIONS[from]?.includes(to) || false] *)
Definition isValidTransition (from to : action_status) : bool :=
  existsb (action_status_beq to) (VALID_TRANSITIONS from).

(* ------------------------------------------------------------------ *)
(** ** Item selection (update-booking-items) *)

(** Partition loop of update-booking-items v1.1 (the revision that follows
    the v1.0 text in src/supabase/functions/create-checkout-trial/index.ts,
    lines 527-853): [home] goes to pickup, [stored] to delivery, a
    [scheduled] item keeps the direction it had on the booking (pickup
    checked first), anything else is ignored.  Ids are pushed in the order
    the items were returned. *)
Definition partition_step (prevP prevD : list string)
    (acc : list string * list string) (it : item) : list string * list string :=
  let '(p, d) := acc in
  match item_st it with
  | home => (p ++ [item_id it], d)
  | stored => (p, d ++ [item_id it])
  | scheduled =>
      if mem (item_id it) prevP then (p ++ [item_id it], d)
      else if mem (item_id it) prevD then (p, d ++ [item_id it])
      else (p, d)
  | in_transit => (p, d)
  end.

Definition partition_items (prevP prevD : list string) (its : list item)
    : list string * list string :=
  fold_left (partition_step prevP prevD) its ([], []).

(** The two branches of the loop that push to pickup and to delivery. *)
Definition to_pickup (prevP prevD : list string) (it : item) : bool :=
  match item_st it with
  | home => true
  | scheduled => mem (item_id it) prevP
  | _ => false
  end.

Definition to_delivery (prevP prevD : list string) (it : item) : bool :=
  match item_st it with
  | stored => true
  | scheduled => negb (mem (item_id it) prevP) && mem (item_id it) prevD
  | _ => false
  end.

(** The pickup and delivery sets of every booking row, by booking id. *)
Definition item_sets (st : store) : list (string * list string * list string) :=
  map (fun a => (action_id a, pickup_item_ids a, delivery_item_ids a)) (actions st).

(** §3 invariant: the two sets of every booking are disjoint. *)
Definition sets_disjoint (a : action) : Prop :=
  forall x, In x (pickup_item_ids a) -> ~ In x (delivery_item_ids a).

Definition bookings_disjoint (st : store) : Prop :=
  forall a, In a (actions st) -> sets_disjoint a.

(** The loop of the v1.0 handler, src/functions/update-booking-items/index.ts
    lines 141-152: [home] to pickup, [stored] to delivery, nothing else. *)
Definition partition_step_v10 (acc : list string * list string) (it : item)
    : list string * list string :=
  let '(p, d) := acc in
  match item_st it with
  | home => (p ++ [item_id it], d)
  | stored => (p, d ++ [item_id it])
  | _ => (p, d)
  end.

Definition partition_items_v10 (its : list item) : list string * list string :=
  fold_left partition_step_v10 its ([], []).

(** Outcomes of the store calls of update-booking-items. *)
Record select_env := mkSelectEnv {
  itemsError : bool;
  updateError : bool;
  addError : bool;
  removePickupError : bool;
  removeDeliveryError : bool
}.

Definition select_ok_env : select_env := mkSelectEnv false false false false false.

Definition json_400 (msg : string) : response := mkResponse 400 (BError msg).

(** "UPDATE ITEM STATUSES (additions AND removals)" of update-booking-items
    v1.1: added items become [scheduled], items dropped from pickup go back
    [home], items dropped from delivery go back to [stored]; each write
    error is logged and ignored. *)
Definition apply_item_changes (env : select_env)
    (prevP prevD p d : list string) (st1 : store) : store :=
  let added := filter (fun id => negb (mem id prevP)) p ++
               filter (fun id => negb (mem id prevD)) d in
  let removedP := filter (fun id => negb (mem id p)) prevP in
  let removedD := filter (fun id => negb (mem id d)) prevD in
  let st2 := if (0 <? length added)%nat && negb (addError env)
             then set_items_status (fun _ => true) added scheduled st1
             else st1 in
  let st3 := if (0 <? length removedP)%nat && negb (removePickupError env)
             then set_items_status (fun _ => true) removedP home st2
             else st2 in
  if (0 <? length removedD)%nat && negb (removeDeliveryError env)
  then set_items_status (fun _ => true) removedD stored st3
  else st3.

(** [serve] of update-booking-items v1.1, from the point where [userId] is
    the verified caller and the body has been parsed. *)
Definition update_booking_items (env : select_env) (userId action_id' : string)
    (selected_item_ids : list string) (st : store) : response * store :=
  if String.eqb action_id' "" then
    (json_400 "Invalid request: action_id and selected_item_ids[] required", st)
  else
  match find_action action_id' st with
  | None => (mkResponse 404 (BError "Action not found"), st)
  | Some a =>
    if negb (String.eqb (user_id a) userId) then
      (mkResponse 403 (BError "Forbidden: Action does not belong to user"), st)
    else if negb (existsb (action_status_beq (status a))
                          [pending_items; pending_confirmation]) then
      (json_400 ("Cannot modify items: action status is '" ++
                 action_status_to_string (status a) ++
                 "' (expected 'pending_items' or 'pending_confirmation')"), st)
    else if itemsError env then
      (mkResponse 500 (BError "Failed to fetch items"), st)
    else
      let its := fetch_items selected_item_ids st in
      let prevP := pickup_item_ids a in
      let prevD := delivery_item_ids a in
      let '(p, d) := partition_items prevP prevD its in
      let newStatus := pending_confirmation in
      if negb (action_status_beq (status a) newStatus)
         && negb (isValidTransition (status a) newStatus) then
        (json_400 ("Invalid status transition: " ++
                   action_status_to_string (status a) ++ " -> " ++
                   action_status_to_string newStatus), st)
      else if updateError env then
        (mkResponse 500 (BError "Failed to update booking"), st)
      else
        let upd := fun x => mkAction (action_id x) (user_id x) newStatus
                                     (service x) p d in
        let st1 := update_actions (fun x => String.eqb (action_id x) action_id')
                                  upd st in
        let st4 := apply_item_changes env prevP prevD p d st1 in
        (mkResponse 200 (BOkAction (upd a) (length p) (length d)),
         log_booking_event "items_updated" st4)
  end.

(** Sample store: booking B1 of U1 awaiting items; I1 at home, I2 stored. *)
Definition sample_store : store :=
  {| actions := [mkAction "B1" "U1" pending_items pickup [] []];
     items := [mkItem "I1" "U1" home; mkItem "I2" "U1" stored];
     profiles := [("U1", "u1@example.com")];
     audit := []; outbox := [] |}.


(* ------------------------------------------------------------------ *)
(** ** Customer cancel (booking-cancel) *)

(** [CUSTOMER_CANCELABLE_STATES] *)
Definition CUSTOMER_CANCELABLE_STATES : list action_status :=
  [pending_items; pending_confirmation].

(** Outcomes of the three writes of booking-cancel. *)
Record cancel_env := mkCancelEnv {
  pickupRevertError : bool;
  deliveryRevertError : bool;
  cancelError : bool
}.

Definition cancel_ok_env : cancel_env := mkCancelEnv false false false.

(** [.update({ status: 'canceled', .. })] on one row. *)
Definition canceled_row (b : action) : action :=
  mkAction (action_id b) (user_id b) canceled (service b)
           (pickup_item_ids b) (delivery_item_ids b).

Definition not_found_booking : response := mkResponse 404 (BError "Booking not found").

(** [serve] of booking-cancel, from the point where [userId] is the
    verified caller and [booking_id] has been read from the body.  The
    ownership mismatch answers exactly like a missing booking. *)
Definition booking_cancel (env : cancel_env) (userId booking_id : string)
    (st : store) : response * store :=
  if String.eqb booking_id "" then
    (mkResponse 400 (BError "booking_id is required"), st)
  else
  match find_action booking_id st with
  | None => (not_found_booking, st)
  | Some b =>
    if negb (String.eqb (user_id b) userId) then (not_found_booking, st)
    else if action_status_beq (status b) canceled then
      (mkResponse 200 (BOkStatus canceled), st)
    else if negb (existsb (action_status_beq (status b))
                          CUSTOMER_CANCELABLE_STATES) then
      (mkResponse 409 (BErrorReason "Cannot cancel booking"
         ("Booking status is '" ++ action_status_to_string (status b) ++
          "'. Cancellation is only allowed for bookings in pending states. Please contact support.")), st)
    else
      let pickupItemIds := pickup_item_ids b in
      let deliveryItemIds := delivery_item_ids b in
      let owned := fun i => String.eqb (item_user_id i) userId in
      (* revert pickup items to 'home'; an error is logged and ignored *)
      let st1 := if (0 <? length pickupItemIds)%nat && negb (pickupRevertError env)
                 then set_items_status owned pickupItemIds home st else st in
      (* revert delivery items to 'stored'; an error is logged and ignored *)
      let st2 := if (0 <? length deliveryItemIds)%nat && negb (deliveryRevertError env)
                 then set_items_status owned deliveryItemIds stored st1 else st1 in
      if cancelError env then
        (mkResponse 500 (BError "Failed to cancel booking"), st2)
      else
        let st3 := update_actions
                     (fun x => String.eqb (action_id x) booking_id &&
                               String.eqb (user_id x) userId)
                     canceled_row st2 in
        (mkResponse 200 (BOkStatus canceled),
         log_booking_event "portal_booking_canceled" st3)
  end.


(* ------------------------------------------------------------------ *)
(** ** Completion coordinator (complete-service) *)

(** [completableStatuses], also the filter of the conditional update. *)
Definition completableStatuses : list action_status := [confirmed; pending_confirmation].

Definition completable (s : action_status) : bool :=
  existsb (action_status_beq s) completableStatuses.

(** Outcomes of the writes of one complete-service call. *)
Record complete_env := mkCompleteEnv {
  itemUpdateError : bool;
  completeError : bool
}.

(** A complete-service call runs in two atomic steps around the one
    await that matters for races: [CStart] reads and checks the action
    and updates its items; [CLoaded a] performs the conditional update
    [.update({status: 'completed'}).eq('id', ..).in('status', ..)] and
    what follows it. *)
Inductive complete_phase :=
| CStart
| CLoaded (a : action)
| CDone (r : response).

Definition complete_load (env : complete_env) (aid : string) (st : store)
    : complete_phase * store :=
  match find_action aid st with
  | None => (CDone (mkResponse 404 (BError "Action not found")), st)
  | Some a =>
    if negb (completable (status a)) then
      (CDone (json_400 ("Cannot complete: action status is '" ++
         action_status_to_string (status a) ++
         "' (expected 'confirmed' or 'pending_confirmation')")), st)
    else
      match service a with
      | pickup =>
        if (0 <? length (pickup_item_ids a))%nat then
          if itemUpdateError env then
            (CDone (mkResponse 500 (BError "Failed to update pickup items")), st)
          else (CLoaded a, set_items_status (fun _ => true) (pickup_item_ids a) stored st)
        else (CLoaded a, st)
      | delivery =>
        if (0 <? length (delivery_item_ids a))%nat then
          if itemUpdateError env then
            (CDone (mkResponse 500 (BError "Failed to update delivery items")), st)
          else (CLoaded a, set_items_status (fun _ => true) (delivery_item_ids a) home st)
        else (CLoaded a, st)
      end
  end.

Definition mark_completed (x : action) : action :=
  mkAction (action_id x) (user_id x) completed (service x)
           (pickup_item_ids x) (delivery_item_ids x).

(** The message of the [TypeError] thrown by
    [supabase.rpc('log_booking_event', ..).catch(..)]: the query builder
    that [rpc] returns has [then] but no [catch]. *)
Definition rpc_catch_error : string := "supabase.rpc(...).catch is not a function".

(** The conditional update and what follows it.  When a row matched, the
    call reaches [supabase.rpc(..).catch(..)]: the builder is never awaited,
    so nothing is logged, and the [TypeError] goes to the outer [catch],
    which answers 500 with its message; the completion email after it is
    never reached. *)
Definition complete_cas (env : complete_env) (aid : string) (a : action)
    (st : store) : complete_phase * store :=
  if completeError env then
    (CDone (mkResponse 500 (BError "Failed to complete action")), st)
  else
  match find_action aid st with
  | Some cur =>
    if completable (status cur) then
      let st1 := update_actions
                   (fun x => String.eqb (action_id x) aid && completable (status x))
                   mark_completed st in
      (CDone (mkResponse 500 (BError rpc_catch_error)), st1)
    else (CDone (mkResponse 200 BOkAlreadyCompleted), st)
  | None => (CDone (mkResponse 200 BOkAlreadyCompleted), st)
  end.

Definition complete_step (env : complete_env) (aid : string)
    (ph : complete_phase) (st : store) : complete_phase * store :=
  match ph with
  | CStart => complete_load env aid st
  | CLoaded a => complete_cas env aid a st
  | CDone r => (CDone r, st)
  end.

Fixpoint replace_nth {A} (n : nat) (x : A) (l : list A) : list A :=
  match l, n with
  | [], _ => []
  | _ :: t, O => x :: t
  | h :: t, S n' => h :: replace_nth n' x t
  end.

(** Concurrent complete-service calls on one action: call [i] runs with
    the outcomes [nth i envs]; [sched] says whose step runs next. *)
Fixpoint run_complete (envs : list complete_env) (aid : string)
    (sched : list nat) (ths : list complete_phase) (st : store)
    : list complete_phase * store :=
  match sched with
  | [] => (ths, st)
  | i :: rest =>
    if (i <? length ths)%nat then
      let '(ph', st') := complete_step (nth i envs (mkCompleteEnv false false)) aid
                                       (nth i ths CStart) st in
      run_complete envs aid rest (replace_nth i ph' ths) st'
    else run_complete envs aid rest ths st
  end.

(** The answer of a call whose conditional update matched a row: only
    [complete_cas] produces this message. *)
Definition is_completed_resp (ph : complete_phase) : bool :=
  match ph with
  | CDone (mkResponse c (BError m)) => Z.eqb c 500 && String.eqb m rpc_catch_error
  | _ => false
  end.

Definition count_completed (ths : list complete_phase) : nat :=
  length (filter is_completed_resp ths).

(* ------------------------------------------------------------------ *)
(** ** Payment webhook idempotency (stripe-webhook) *)

(** The idempotency ledger ([check_stripe_webhook_event] /
    [insert_stripe_webhook_event]) and the state mutations made by the
    event handlers: one entry [ev] for a run of the business logic that
    completes, and the writes made before the throw for one that throws. *)
Record pay_state := mkPayState {
  ledger : list string;
  applied : list string
}.

(** Outcomes of the calls after signature verification. *)
Record pay_env := mkPayEnv {
  checkError : bool;          (* the ledger check RPC fails *)
  processingFails : bool;     (* the event handler throws *)
  insertError : bool;         (* the ledger insert RPC fails *)
  writesBeforeThrow : list string
    (* what a throwing handler wrote first: handleCheckoutCompleted calls
       log_signup_anomaly and auth.admin.createUser before it can throw *)
}.

Definition pay_ok_env : pay_env := mkPayEnv false false false [].

(** [serve] of stripe-webhook (supabase/functions) after
    [constructEventAsync] has accepted the event [ev]. *)
Definition stripe_webhook (env : pay_env) (ev : string) (st : pay_state)
    : response * pay_state :=
  (* data is null when the check RPC errors: fail open *)
  let eventExists := if checkError env then None
                     else Some (mem ev (ledger st)) in
  match eventExists with
  | Some true => (mkResponse 200 BOkDuplicate, st)
  | _ =>
    if processingFails env then
      (* the writes already made stay; the ledger is not touched *)
      (mkResponse 500 (BError "Internal server error"),
       mkPayState (ledger st) (applied st ++ writesBeforeThrow env))
    else
      let st1 := mkPayState (ledger st) (applied st ++ [ev]) in
      (* record only after success; an insert error is logged only *)
      let st2 := if insertError env then st1
                 else mkPayState (ledger st1 ++ [ev]) (applied st1) in
      (mkResponse 200 BOk, st2)
  end.

(* ------------------------------------------------------------------ *)
(** ** Scheduling webhook verification (calendly-webhook v2.0) *)

(** [str.split(c)] for a one-character separator: never empty. *)
Fixpoint split_on (c : Ascii.ascii) (s : string) : list string :=
  match s with
  | EmptyString => [""]
  | String x r =>
    let parts := split_on c r in
    if Ascii.eqb x c then "" :: parts
    else match parts with
         | p :: ps => String x p :: ps
         | [] => [String x ""]
         end
  end.

(** The characters [String.prototype.trim] removes, among the codes
    0-255 a string of this model holds (a header is a byte string): tab,
    line feed, vertical tab, form feed, carriage return, space and the
    no-break space U+00A0. *)
Definition is_ws (c : Ascii.ascii) : bool :=
  existsb (Nat.eqb (Ascii.nat_of_ascii c)) [9; 10; 11; 12; 13; 32; 160]%nat.

Fixpoint trim_left (s : string) : string :=
  match s with
  | String x r => if is_ws x then trim_left r else s
  | EmptyString => EmptyString
  end.

Fixpoint rev_string (s : string) : string :=
  match s with
  | String x r => rev_string r ++ String x ""
  | EmptyString => EmptyString
  end.

(** [str.trim()] *)
Definition trim (s : string) : string :=
  rev_string (trim_left (rev_string (trim_left s))).

Fixpoint join (sep : string) (l : list string) : string :=
  match l with
  | [] => ""
  | [x] => x
  | x :: r => x ++ sep ++ join sep r
  end.

(** A [Map<string,string>]: the latest [set] of a key wins. *)
Definition map_get (k : string) (m : list (string * string)) : option string :=
  option_map snd (find (fun kv => String.eqb (fst kv) k) m).

(** Truthiness of an optional string ([undefined] and [''] are falsy). *)
Definition truthy (o : option string) : bool :=
  match o with Some s => negb (String.eqb s "") | None => false end.

Definition parse_part (m : list (string * string)) (part : string)
    : list (string * string) :=
  match split_on "="%char part with
  | k :: rest =>
    if String.eqb k "" then m
    else match rest with
         | [] => m
         | _ => (trim k, trim (join "=" rest)) :: m
         end
  | [] => m
  end.

(** [parseCalendlySignatureHeader] *)
Definition parseCalendlySignatureHeader (headerValue : string)
    : option (string * string) :=
  let parts := map trim (split_on ","%char headerValue) in
  let m := fold_left parse_part parts [] in
  match map_get "t" m, map_get "v1" m with
  | Some t, Some v1 =>
    if truthy (Some t) && truthy (Some v1) then Some (t, v1) else None
  | _, _ => None
  end.

(** [constantTimeEqual]: OR of the XORs of the char codes. *)
Fixpoint xor_or (a b : string) (out : N) : N :=
  match a, b with
  | String x a', String y b' =>
    xor_or a' b' (N.lor out (N.lxor (Ascii.N_of_ascii x) (Ascii.N_of_ascii y)))
  | _, _ => out
  end.

Definition constantTimeEqual (a b : string) : bool :=
  if negb (Nat.eqb (String.length a) (String.length b)) then false
  else N.eqb (xor_or a b 0) 0.

Definition MAX_CLOCK_SKEW_SECONDS : Z := (5 * 60)%Z.

Inductive verdict :=
| VOk
| VReject (status : Z) (reason : string).

Section Calendly.

(** The platform primitives: [Number(t)] ([None] when not finite) and
    HMAC-SHA256 rendered as lowercase hex. *)
Variable js_Number : string -> option Q.
Variable computeHmacSha256Hex : string -> string -> string.

(** [isFreshTimestampSeconds] at the current time [now] (whole seconds). *)
Definition isFreshTimestampSeconds (now : Z) (t : string) : bool :=
  match js_Number t with
  | None => false
  | Some ts =>
    if Qle_bool ts (inject_Z 0) then false
    else Qle_bool (Qabs (inject_Z now - ts)) (inject_Z MAX_CLOCK_SKEW_SECONDS)
  end.

(** [verifyCalendlySignature]: [header] is the signature header,
    [signingKey] the [CALENDLY_WEBHOOK_SIGNING_KEY] environment value. *)
Definition verifyCalendlySignature (signingKey header : option string)
    (now : Z) (rawBody : string) : verdict :=
  match header with
  | Some headerValue =>
    if String.eqb headerValue "" then VReject 401 "missing_signature_header"
    else if negb (truthy signingKey) then VReject 500 "missing_signing_key_env"
    else
      match parseCalendlySignatureHeader headerValue with
      | None => VReject 401 "invalid_signature_header_format"
      | Some (t, v1) =>
        if negb (isFreshTimestampSeconds now t) then
          VReject 401 "stale_signature_timestamp"
        else
          let key := match signingKey with Some k => k | None => "" end in
          let expected := computeHmacSha256Hex key (t ++ "." ++ rawBody) in
          if negb (constantTimeEqual expected v1) then
            VReject 401 "signature_mismatch"
          else VOk
      end
  | None => VReject 401 "missing_signature_header"
  end.

(** [serve]: [handle_event] is everything after verification (JSON
    parsing, the invitee handlers and their store reads and writes). *)
Definition calendly_serve (handle_event : string -> store -> response * store)
    (signingKey : option string) (method : string) (header : option string)
    (now : Z) (rawBody : string) (st : store) : response * store :=
  if String.eqb method "OPTIONS" then (mkResponse 200 BOk, st)
  else
    match verifyCalendlySignature signingKey header now rawBody with
    | VReject s reason => (mkResponse s (BErrorReason "Unauthorized" reason), st)
    | VOk => handle_event rawBody st
    end.

End Calendly.

(* ================================================================== *)
(** * Further handlers *)

(* ------------------------------------------------------------------ *)
(** ** Helpers *)

(** [o || ''] on an optional string. *)
Definition get_or (o : option string) : string :=
  match o with Some s => s | None => "" end.

(** [s.replace(pat, rep)] with a string pattern: the first occurrence. *)
Fixpoint replace_first (pat rep s : string) : string :=
  if String.prefix pat s then
    rep ++ substring (String.length pat) (String.length s - String.length pat) s
  else
    match s with
    | EmptyString => EmptyString
    | String c r => String c (replace_first pat rep r)
    end.

(* ------------------------------------------------------------------ *)
(** ** One complete-service call run alone *)

(** A complete-service call that no other call interleaves with: the
    loading step and, when it reaches it, the conditional update. *)
Definition complete_service (env : complete_env) (aid : string) (st : store)
    : complete_phase * store :=
  let '(ph, st1) := complete_load env aid st in
  complete_step env aid ph st1.

(** [serve] of complete-service from the authorization header on:
    [getUser] resolves the token to the caller ([None] on error or no
    user), [staffCheck] is the [sv.staff] lookup ([inl msg] on a query
    error, [inr found] otherwise), [body] the [action_id] field of the parsed
    body, an object ([None] when the body is not JSON). *)
Definition complete_service_serve (env : complete_env) (getUser : string -> option string)
    (staffCheck : string -> string + bool) (authHeader : option string)
    (body : option (option string)) (st : store) : complete_phase * store :=
  if negb (truthy authHeader) then
    (CDone (mkResponse 401 (BError "Authorization required")), st)
  else
    match getUser (replace_first "Bearer " "" (get_or authHeader)) with
    | None => (CDone (mkResponse 401 (BError "Invalid or expired token")), st)
    | Some caller =>
      match staffCheck caller with
      | inl msg => (CDone (mkResponse 500 (BError ("Staff check failed: " ++ msg))), st)
      | inr false => (CDone (mkResponse 403 (BError "Forbidden: staff only")), st)
      | inr true =>
        match body with
        | None => (CDone (json_400 "Invalid JSON"), st)
        | Some action_id' =>
          if negb (truthy action_id') then (CDone (json_400 "action_id required"), st)
          else complete_service env (get_or action_id') st
        end
      end
    end.

(* ------------------------------------------------------------------ *)
(** ** Authentication of update-booking-items v1.0 *)

(** [JSON.parse(atob(seg)).sub] for [seg = token.split('.')[1]] (possibly
    [undefined]): [inl msg] when it throws with message [msg], [inr None]
    when [sub] is falsy, [inr (Some u)] otherwise. *)
Definition jwt_sub_decoder := option string -> string + option string.

(** The v1.0 handler after authentication
    (src/functions/update-booking-items/index.ts, lines 82-219): the
    service-role client, the v1.0 partition, no item-status writes. *)
Definition update_booking_items_v10 (env : select_env) (userId action_id' : string)
    (selected_item_ids : list string) (st : store) : response * store :=
  if String.eqb action_id' "" then
    (json_400 "Invalid request: action_id and selected_item_ids[] required", st)
  else
  match find_action action_id' st with
  | None => (mkResponse 404 (BError "Action not found"), st)
  | Some a =>
    if negb (String.eqb (user_id a) userId) then
      (mkResponse 403 (BError "Forbidden: Action does not belong to user"), st)
    else if negb (existsb (action_status_beq (status a))
                          [pending_items; pending_confirmation]) then
      (json_400 ("Cannot modify items: action status is '" ++
                 action_status_to_string (status a) ++
                 "' (expected 'pending_items' or 'pending_confirmation')"), st)
    else if itemsError env then
      (mkResponse 500 (BError "Failed to fetch items"), st)
    else
      let '(p, d) := partition_items_v10 (fetch_items selected_item_ids st) in
      let newStatus := pending_confirmation in
      if negb (action_status_beq (status a) newStatus)
         && negb (isValidTransition (status a) newStatus) then
        (json_400 ("Invalid status transition: " ++
                   action_status_to_string (status a) ++ " -> " ++
                   action_status_to_string newStatus), st)
      else if updateError env then
        (mkResponse 500 (BError "Failed to update booking"), st)
      else
        let upd := fun x => mkAction (action_id x) (user_id x) newStatus
                                     (service x) p d in
        let st1 := update_actions (fun x => String.eqb (action_id x) action_id')
                                  upd st in
        (mkResponse 200 (BOkAction (upd a) (length p) (length d)),
         log_booking_event "items_added" st1)
  end.

(** [serve] of v1.0 for a POST request, from the authorization header on:
    the token is decoded, not verified. *)
Definition update_booking_items_v10_serve (decode : jwt_sub_decoder) (env : select_env)
    (authHeader : option string) (action_id' : string)
    (selected_item_ids : list string) (st : store) : response * store :=
  if negb (truthy authHeader) then
    (mkResponse 401 (BError "No authorization header"), st)
  else
    let token := replace_first "Bearer " "" (match authHeader with
                                             | Some h => h | None => "" end) in
    match decode (nth_error (split_on "."%char token) 1) with
    | inl msg =>
      (mkResponse 500 (BError (if String.eqb msg "" then "Internal server error"
                               else msg)), st)
    | inr None => (mkResponse 401 (BError "Invalid token"), st)
    | inr (Some userId) =>
      update_booking_items_v10 env userId action_id' selected_item_ids st
    end.

(* ------------------------------------------------------------------ *)
(** ** Subscription and invoice handlers (stripe-webhook) *)

(** Whether an event handler returned or threw. *)
Inductive outcome := Returned | Threw.

Definition threw (o : outcome) : bool :=
  match o with Threw => true | Returned => false end.

(** The [customer_profile] columns the handlers read. *)
Record billing_profile := mkBillingProfile {
  bp_user_id : string;
  bp_stripe_customer_id : option string;
  bp_email : option string;
  bp_first_name : option string
}.

(** Arguments of one [update_subscription_status] call; [None] is a
    parameter that is left out or passed as [null]; times are seconds. *)
Record sub_update := mkSubUpdate {
  p_user_id : string;
  p_status : string;
  p_subscription_id : option string;
  p_trial_end_at : option Z;
  p_cancel_at_period_end : option bool;
  p_cancel_at : option Z;
  p_billing_version : option string;
  p_last_payment_at : option Z;
  p_last_payment_failed_at : option Z
}.

(** The profiles, the successful [update_subscription_status] calls and
    the emails handed to [sendTransactionalEmail] (type, to, firstName). *)
Record billing_store := mkBillingStore {
  bprofiles : list billing_profile;
  sub_updates : list sub_update;
  bmails : list (email_type * string * option string)
}.

Record billing_env := mkBillingEnv {
  profileLookupError : bool;     (* the profile query errors *)
  rpcError : bool                (* update_subscription_status errors *)
}.

Record subscription := mkSubscription {
  sub_id : string;
  sub_customer : string;
  sub_status : string;
  sub_trial_end : option Z;
  sub_cancel_at_period_end : bool;
  sub_cancel_at : option Z;
  sub_billing_version : option string     (* metadata.billing_version *)
}.

Record invoice := mkInvoice {
  inv_id : string;
  inv_customer : string
}.

Definition has_customer (c : string) (p : billing_profile) : bool :=
  match bp_stripe_customer_id p with
  | Some c' => String.eqb c' c
  | None => false
  end.

(** [.from('customer_profile').select(..).eq('stripe_customer_id', c)
    .single()]: the data is [null] unless exactly one row matches. *)
Definition profile_by_customer (env : billing_env) (c : string) (bs : billing_store)
    : option billing_profile :=
  if profileLookupError env then None
  else match filter (has_customer c) (bprofiles bs) with
       | [p] => Some p
       | _ => None
       end.

(** [supabase.rpc('update_subscription_status', args)]; an error is thrown. *)
Definition update_subscription_status (env : billing_env) (args : sub_update)
    (bs : billing_store) : outcome * billing_store :=
  if rpcError env then (Threw, bs)
  else (Returned, mkBillingStore (bprofiles bs) (sub_updates bs ++ [args]) (bmails bs)).

(** [x ? f(x) : null] on a Stripe timestamp. *)
Definition truthy_time (t : option Z) : option Z :=
  match t with
  | Some n => if Z.eqb n 0 then None else Some n
  | None => None
  end.

Definition handleSubscriptionChange (env : billing_env) (s : subscription)
    (bs : billing_store) : outcome * billing_store :=
  match profile_by_customer env (sub_customer s) bs with
  | None => (Returned, bs)
  | Some p =>
    let billingVersion := if truthy (sub_billing_version s)
                          then sub_billing_version s else None in
    update_subscription_status env
      (mkSubUpdate (bp_user_id p) (sub_status s) (Some (sub_id s))
         (truthy_time (sub_trial_end s)) (Some (sub_cancel_at_period_end s))
         (truthy_time (sub_cancel_at s)) billingVersion None None) bs
  end.

Definition handleSubscriptionDeleted (env : billing_env) (s : subscription)
    (bs : billing_store) : outcome * billing_store :=
  match profile_by_customer env (sub_customer s) bs with
  | None => (Returned, bs)
  | Some p =>
    update_subscription_status env
      (mkSubUpdate (bp_user_id p) "canceled" None None (Some false) None None None None) bs
  end.

Definition handleInvoicePaymentSucceeded (env : billing_env) (now : Z) (i : invoice)
    (bs : billing_store) : outcome * billing_store :=
  match profile_by_customer env (inv_customer i) bs with
  | None => (Returned, bs)
  | Some p =>
    update_subscription_status env
      (mkSubUpdate (bp_user_id p) "active" None None None None None (Some now) None) bs
  end.

Definition handleInvoicePaymentFailed (env : billing_env) (now : Z) (i : invoice)
    (bs : billing_store) : outcome * billing_store :=
  match profile_by_customer env (inv_customer i) bs with
  | None => (Returned, bs)
  | Some p =>
    match update_subscription_status env
            (mkSubUpdate (bp_user_id p) "past_due" None None None None None None (Some now)) bs with
    | (Threw, bs1) => (Threw, bs1)
    | (Returned, bs1) =>
      (* fire-and-forget [sendTransactionalEmail('payment_failed', ..)] *)
      if truthy (bp_email p) then
        (Returned, mkBillingStore (bprofiles bs1) (sub_updates bs1)
                     (bmails bs1 ++ [(payment_failed,
                                      match bp_email p with Some e => e | None => "" end,
                                      if truthy (bp_first_name p) then bp_first_name p
                                      else None)]))
      else (Returned, bs1)
    end
  end.

(* ------------------------------------------------------------------ *)
(** ** Booking handlers of calendly-webhook v2.0 *)

(** [toLowerCase] / Postgres [lower] on a code unit below 256. *)
Definition lower_char (c : Ascii.ascii) : Ascii.ascii :=
  let n := Ascii.nat_of_ascii c in
  if (Nat.leb 65 n && Nat.leb n 90) ||
     (Nat.leb 192 n && Nat.leb n 222 && negb (Nat.eqb n 215))
  then Ascii.ascii_of_nat (n + 32)%nat else c.

Fixpoint lower (s : string) : string :=
  match s with
  | EmptyString => EmptyString
  | String c r => String (lower_char c) (lower r)
  end.

(** Results of Postgres' [MatchText] (like_match.c); [LikeError] is the
    "LIKE pattern must not end with escape character" error. *)
Inductive like_result := LikeTrue | LikeFalse | LikeAbort | LikeError.

(** [MatchText(t, p)] with the default escape character ['\'], one byte a
    character. *)
Fixpoint MatchText (p t : list Ascii.ascii) {struct p} : like_result :=
  match p, t with
  | [], [] => LikeTrue
  | [], _ :: _ => LikeFalse
  | _ :: _, [] =>
    (* the loop ends with the text: skip trailing '%' *)
    if forallb (Ascii.eqb "%"%char) p then LikeTrue else LikeAbort
  | c :: p', x :: t' =>
    if Ascii.eqb c "\"%char then
      match p' with
      | [] => LikeError
      | e :: p'' => if Ascii.eqb e x then MatchText p'' t' else LikeFalse
      end
    else if Ascii.eqb c "%"%char then
      (* skip the '%' and '_' that follow, then try each position *)
      (fix pct (q : list Ascii.ascii) (u : list Ascii.ascii) {struct q} : like_result :=
         match q with
         | [] => LikeTrue
         | c1 :: q' =>
           if Ascii.eqb c1 "%"%char then pct q' u
           else if Ascii.eqb c1 "_"%char then
             match u with [] => LikeAbort | _ :: u' => pct q' u' end
           else
             match (if Ascii.eqb c1 "\"%char
                    then match q' with [] => None | e :: _ => Some e end
                    else Some c1) with
             | None => LikeError
             | Some firstpat =>
               (fix scan (s : list Ascii.ascii) : like_result :=
                  match s with
                  | [] => LikeAbort
                  | y :: s' =>
                    if Ascii.eqb y firstpat then
                      match MatchText q s with
                      | LikeFalse => scan s'
                      | r => r
                      end
                    else scan s'
                  end) u
             end
         end) p' t
    else if Ascii.eqb c "_"%char then MatchText p' t'
    else if Ascii.eqb c x then MatchText p' t'
    else LikeFalse
  end.

(** [value ILIKE pattern]: both sides lowered, then [MatchText]. *)
Definition ilike (value pattern : string) : like_result :=
  MatchText (list_ascii_of_string (lower pattern)) (list_ascii_of_string (lower value)).

(** The [actions] columns written by the scheduling webhook. *)
Record invitee_payload := mkInviteePayload {
  pl_email : option string;        (* payload.email *)
  pl_uri : option string;          (* payload.scheduled_event?.uri *)
  pl_start : option string;        (* payload.scheduled_event?.start_time *)
  pl_end : option string           (* payload.scheduled_event?.end_time *)
}.

Record cal_action := mkCalAction {
  ca_id : nat;
  ca_user_id : string;
  ca_service : service_type;
  ca_uri : option string;
  ca_start : string;
  ca_end : string;
  ca_status : action_status;
  ca_address : option string;
  ca_payload : invitee_payload;
  ca_pickup : list string;
  ca_delivery : list string
}.

Record cal_profile := mkCalProfile {
  cp_user_id : string;
  cp_email : string;
  cp_address : option string;
  cp_sub_status : string
}.

(** [actions] (a fresh id is [next_id]), [customer_profile] and the
    [booking_events] written (action id, event type). *)
Record cal_store := mkCalStore {
  cactions : list cal_action;
  cprofiles : list cal_profile;
  next_id : nat;
  cevents : list (option nat * string)
}.

Record cal_env := mkCalEnv {
  get_user_id_by_email : string -> option string;  (* [null] on error *)
  profileUpsertError : bool;
  actionUpsertError : bool;
  cancelUpdateError : bool
}.

Definition cal_log (aid : option nat) (ev : string) (st : cal_store) : cal_store :=
  mkCalStore (cactions st) (cprofiles st) (next_id st) (cevents st ++ [(aid, ev)]).

(** [.from('customer_profile').select(..).ilike('email', e).single()]: an
    error of any row's match fails the query; the data is [null] unless
    exactly one row matches. *)
Definition profile_by_email (e : string) (st : cal_store) : option cal_profile :=
  if existsb (fun p => match ilike (cp_email p) e with LikeError => true | _ => false end)
             (cprofiles st) then None
  else match filter (fun p => match ilike (cp_email p) e with LikeTrue => true | _ => false end)
                    (cprofiles st) with
       | [p] => Some p
       | _ => None
       end.

(** [.upsert({user_id, email, subscription_status: 'inactive'},
    { onConflict: 'user_id' })] *)
Definition upsert_profile (u e : string) (st : cal_store) : cal_store :=
  if existsb (fun p => String.eqb (cp_user_id p) u) (cprofiles st) then
    mkCalStore (cactions st)
      (map (fun p => if String.eqb (cp_user_id p) u
                     then mkCalProfile u e (cp_address p) "inactive" else p) (cprofiles st))
      (next_id st) (cevents st)
  else
    mkCalStore (cactions st) (cprofiles st ++ [mkCalProfile u e None "inactive"])
      (next_id st) (cevents st).

Definition has_uri (uri : string) (a : cal_action) : bool :=
  match ca_uri a with Some v => String.eqb v uri | None => false end.

(** A non-empty header field with no separator or white space. *)
Definition sig_field_ok (s : string) : bool :=
  negb (String.eqb s "") &&
  forallb (fun x => negb (Ascii.eqb x ","%char) && negb (Ascii.eqb x "="%char) &&
                    negb (is_ws x)) (list_ascii_of_string s).

(** A pattern with no wildcard or escape character. *)
Definition like_literal (l : list Ascii.ascii) : bool :=
  forallb (fun c => negb (Ascii.eqb c "%"%char) && negb (Ascii.eqb c "_"%char) &&
                    negb (Ascii.eqb c "\"%char)) l.

Section CalendlyHandlers.

(** The column default of [pickup_item_ids] and [delivery_item_ids] (the
    table definition is not in the repository). *)
Variable item_ids_default : list string.

(** [.from('actions').upsert({..}, { onConflict: 'calendly_event_uri' })
    .select('id').single()]: the conflicting row is updated in place
    (keeping its id and item lists), otherwise a row is inserted. *)
Definition upsert_action (u uri start end_ : string) (addr : option string)
    (pl : invitee_payload) (st : cal_store) : nat * cal_store :=
  match find (has_uri uri) (cactions st) with
  | Some a =>
    (ca_id a,
     mkCalStore
       (map (fun x => if has_uri uri x
                      then mkCalAction (ca_id x) u pickup (Some uri) start end_
                                       pending_items addr pl (ca_pickup x) (ca_delivery x)
                      else x) (cactions st))
       (cprofiles st) (next_id st) (cevents st))
  | None =>
    (next_id st,
     mkCalStore
       (cactions st ++ [mkCalAction (next_id st) u pickup (Some uri) start end_
                          pending_items addr pl item_ids_default item_ids_default])
       (cprofiles st) (S (next_id st)) (cevents st))
  end.

(** [handleInviteeCreated] *)
Definition handleInviteeCreated (env : cal_env) (pl : invitee_payload) (st : cal_store)
    : outcome * cal_store :=
  let inviteeEmail := trim (lower (get_or (pl_email pl))) in
  if negb (truthy (Some inviteeEmail)) || negb (truthy (pl_uri pl)) ||
     negb (truthy (pl_start pl)) || negb (truthy (pl_end pl)) then
    (Returned, cal_log None "calendly_webhook_error" st)
  else
    let eventUri := get_or (pl_uri pl) in
    let resolved :=
      match profile_by_email inviteeEmail st with
      | Some p => (Some (cp_user_id p, cp_address p),
                   cal_log None "calendly_profile_found" st)
      | None =>
        match get_user_id_by_email env inviteeEmail with
        | Some authUserId =>
          if String.eqb authUserId "" then
            (None, cal_log None "calendly_orphan_booking" st)
          else if profileUpsertError env then
            (Some (authUserId, None), cal_log None "calendly_profile_create_failed" st)
          else
            (Some (authUserId, None),
             cal_log None "calendly_profile_created" (upsert_profile authUserId inviteeEmail st))
        | None => (None, cal_log None "calendly_orphan_booking" st)
        end
      end in
    match resolved with
    | (None, st1) => (Returned, st1)
    | (Some (userId, deliveryAddress), st1) =>
      if actionUpsertError env then (Threw, st1)
      else
        let '(id, st2) := upsert_action userId eventUri (get_or (pl_start pl))
                            (get_or (pl_end pl)) deliveryAddress pl st1 in
        (Returned, cal_log (Some id) "calendly_booking_created" st2)
    end.

End CalendlyHandlers.

(** [handleInviteeCanceled] *)
Definition handleInviteeCanceled (env : cal_env) (pl : invitee_payload) (st : cal_store)
    : outcome * cal_store :=
  if negb (truthy (pl_uri pl)) then (Returned, st)
  else
    let eventUri := get_or (pl_uri pl) in
    match filter (has_uri eventUri) (cactions st) with
    | [a] =>
      if cancelUpdateError env then (Threw, st)
      else
        let st1 := mkCalStore
                     (map (fun x => if Nat.eqb (ca_id x) (ca_id a)
                                    then mkCalAction (ca_id x) (ca_user_id x) (ca_service x)
                                           (ca_uri x) (ca_start x) (ca_end x) canceled
                                           (ca_address x) (ca_payload x) (ca_pickup x)
                                           (ca_delivery x)
                                    else x) (cactions st))
                     (cprofiles st) (next_id st) (cevents st) in
        (Returned, cal_log (Some (ca_id a)) "calendly_booking_canceled" st1)
    | _ => (Returned, cal_log None "calendly_orphan_cancellation" st)
    end.

(** A string with no white space. *)
Definition no_ws (s : string) : bool :=
  forallb (fun x => negb (is_ws x)) (list_ascii_of_string s).

(** Samples: a booking of U1 with items chosen, and an invitee. *)
Definition booked_store : store :=
  {| actions := [mkAction "B1" "U1" pending_confirmation pickup ["I1"] ["I2"]];
     items := [mkItem "I1" "U1" scheduled; mkItem "I2" "U1" scheduled;
               mkItem "I3" "U2" home];
     profiles := [("U1", "u1@example.com")];
     audit := []; outbox := [] |}.

Definition invitee_ab : invitee_payload :=
  mkInviteePayload (Some "A_b@x.com ") (Some "uri1") (Some "s1") (Some "e1").

Definition cal_env_auth (u : option string) : cal_env :=
  mkCalEnv (fun _ => u) false false false.

(* ================================================================== *)
(** * Properties *)

Example select_sample :
  let '(r, st1) := update_booking_items select_ok_env "U1" "B1" ["I1"; "I2"] sample_store in
  code r = 200%Z /\ find_action "B1" st1 =
    Some (mkAction "B1" "U1" pending_confirmation pickup ["I1"] ["I2"]) /\
  item_status_of "I1" st1 = Some scheduled /\ item_status_of "I2" st1 = Some scheduled.
Proof. vm_compute. repeat split; reflexivity. Qed.

Example cancel_sample :
  let '(_, st1) := update_booking_items select_ok_env "U1" "B1" ["I1"; "I2"] sample_store in
  let '(r2, st2) := booking_cancel cancel_ok_env "U1" "B1" st1 in
  let '(r3, st3) := booking_cancel cancel_ok_env "U1" "B1" st2 in
  r2 = mkResponse 200 (BOkStatus canceled) /\ r3 = r2 /\ st3 = st2 /\
  item_status_of "I1" st2 = Some home /\ item_status_of "I2" st2 = Some stored.
Proof. vm_compute. repeat split; reflexivity. Qed.

(** ** Store lemmas *)

Lemma mem_In (x : string) (l : list string) : mem x l = true <-> In x l.
Proof.
  unfold mem. rewrite existsb_exists. split.
  - intros [y [Hy Heq]]. apply String.eqb_eq in Heq. subst. exact Hy.
  - intros H. exists x. split; [exact H | apply String.eqb_refl].
Qed.

Lemma mem_false_not_In (x : string) (l : list string) : mem x l = false <-> ~ In x l.
Proof.
  rewrite <- mem_In. destruct (mem x l); split; congruence.
Qed.

Lemma find_action_update (p : action -> bool) (f : action -> action)
    (bid : string) (st : store) (b : action) :
  find_action bid st = Some b -> p b = true ->
  (forall x, action_id (f x) = action_id x) ->
  find_action bid (update_actions p f st) = Some (f b).
Proof.
  unfold find_action, update_actions; simpl. intros Hf Hp Hid.
  induction (actions st) as [|x xs IH]; simpl in *; [discriminate|].
  destruct (String.eqb (action_id x) bid) eqn:E.
  - injection Hf as <-. rewrite Hp, Hid, E. reflexivity.
  - destruct (p x); [rewrite Hid|]; rewrite E; apply IH; exact Hf.
Qed.

Lemma set_items_status_In (p : item -> bool) (ids : list string)
    (s : item_status) (st : store) (i : item) :
  In i (items (set_items_status p ids s st)) ->
  exists i0, In i0 (items st) /\ item_id i = item_id i0 /\
    item_user_id i = item_user_id i0 /\
    item_st i = (if mem (item_id i0) ids && p i0 then s else item_st i0).
Proof.
  simpl. rewrite in_map_iff. intros [i0 [Hi Hin]]. exists i0.
  destruct (mem (item_id i0) ids && p i0); subst; simpl; auto.
Qed.

Lemma set_items_status_ids (p : item -> bool) (ids : list string)
    (s : item_status) (st : store) :
  map item_id (items (set_items_status p ids s st)) = map item_id (items st).
Proof.
  simpl. rewrite map_map. apply map_ext. intros i.
  destruct (mem (item_id i) ids && p i); reflexivity.
Qed.

(** ** C1: the transition validator and its caller *)

(** Claim C1 (as amended).  [isValidTransition] accepts exactly the pairs
    of its own table: pending_items to pending_confirmation or canceled,
    pending_confirmation to confirmed or canceled, confirmed to in_progress
    or canceled, in_progress to completed or canceled, nothing from
    completed or canceled.  Item selection, its only caller, rejects every
    booking outside pending_items and pending_confirmation with a 400 before
    any write, and never rejects from those two: when the item fetch and
    the booking update succeed it answers 200 (the pending_confirmation
    self-loop skips the validator). *)
Theorem C1_transition_validator :
  (forall from to,
     isValidTransition from to = true <->
     In (from, to) [(pending_items, pending_confirmation); (pending_items, canceled);
                    (pending_confirmation, confirmed); (pending_confirmation, canceled);
                    (confirmed, in_progress); (confirmed, canceled);
                    (in_progress, completed); (in_progress, canceled)]) /\
  (forall env uid bid sel st a,
     bid <> "" -> find_action bid st = Some a -> user_id a = uid ->
     ~ In (status a) [pending_items; pending_confirmation] ->
     code (fst (update_booking_items env uid bid sel st)) = 400%Z /\
     snd (update_booking_items env uid bid sel st) = st) /\
  (forall env uid bid sel st a,
     bid <> "" -> find_action bid st = Some a -> user_id a = uid ->
     In (status a) [pending_items; pending_confirmation] ->
     itemsError env = false -> updateError env = false ->
     code (fst (update_booking_items env uid bid sel st)) = 200%Z).
Proof.
  split; [|split].
  - intros from to; destruct from, to; cbn;
      intuition (try discriminate; try congruence).
  - intros env uid bid sel st a Hbid Hf Hu Hs.
    unfold update_booking_items.
    apply String.eqb_neq in Hbid. rewrite Hbid, Hf, Hu, String.eqb_refl. cbn.
    destruct (status a); cbn in *; try (exfalso; tauto); split; reflexivity.
  - intros env uid bid sel st a Hbid Hf Hu Hs Hie Hue.
    unfold update_booking_items.
    apply String.eqb_neq in Hbid. rewrite Hbid, Hf, Hu, String.eqb_refl, Hie.
    destruct (partition_items _ _ _) as [p d].
    destruct Hs as [Hs|[Hs|[]]]; rewrite <- Hs; cbn; rewrite Hue; reflexivity.
Qed.

(** Claim C1 fails as stated: the validator rejects confirmed to completed
    and the pending_confirmation self-loop, both in the claim's table. *)
Lemma C1_counterexample :
  isValidTransition confirmed completed = false /\
  isValidTransition pending_confirmation pending_confirmation = false.
Proof. split; reflexivity. Qed.

(** ** Customer cancel *)

(** The cancel path of [booking_cancel] once the booking has been found,
    owned and found cancelable. *)
Lemma booking_cancel_path env uid bid st b :
  bid <> "" -> find_action bid st = Some b -> user_id b = uid ->
  In (status b) CUSTOMER_CANCELABLE_STATES ->
  booking_cancel env uid bid st =
  (let owned := fun i => String.eqb (item_user_id i) uid in
   let st1 := if (0 <? length (pickup_item_ids b))%nat && negb (pickupRevertError env)
              then set_items_status owned (pickup_item_ids b) home st else st in
   let st2 := if (0 <? length (delivery_item_ids b))%nat && negb (deliveryRevertError env)
              then set_items_status owned (delivery_item_ids b) stored st1 else st1 in
   if cancelError env then (mkResponse 500 (BError "Failed to cancel booking"), st2)
   else (mkResponse 200 (BOkStatus canceled),
         log_booking_event "portal_booking_canceled"
           (update_actions (fun x => String.eqb (action_id x) bid &&
                                     String.eqb (user_id x) uid)
              canceled_row st2))).
Proof.
  intros Hbid Hf Hu Hs. unfold booking_cancel.
  apply String.eqb_neq in Hbid. rewrite Hbid, Hf, Hu, String.eqb_refl.
  destruct (status b) eqn:E; cbn in Hs; intuition discriminate.
Qed.

Lemma find_action_items_writes bid st p ids s :
  find_action bid (set_items_status p ids s st) = find_action bid st.
Proof. reflexivity. Qed.

Lemma find_action_log bid st ev :
  find_action bid (log_booking_event ev st) = find_action bid st.
Proof. reflexivity. Qed.

(** ** C5: cancel idempotence *)

(** Claim C5.  Cancelling (by its owner) a booking that is already
    canceled answers [{ok: true, status: 'canceled'}], the answer of a
    successful first cancellation, and writes nothing: the store, and so
    every item status, is unchanged. *)
Theorem C5_cancel_idempotent env uid bid st b :
  bid <> "" -> find_action bid st = Some b -> user_id b = uid ->
  status b = canceled ->
  booking_cancel env uid bid st = (mkResponse 200 (BOkStatus canceled), st) /\
  (forall env' st' b', find_action bid st' = Some b' -> user_id b' = uid ->
     In (status b') CUSTOMER_CANCELABLE_STATES -> cancelError env' = false ->
     fst (booking_cancel env' uid bid st') = mkResponse 200 (BOkStatus canceled)).
Proof.
  intros Hbid Hf Hu Hs. split.
  - unfold booking_cancel.
    assert (Hb := Hbid). apply String.eqb_neq in Hb.
    rewrite Hb, Hf, Hu, String.eqb_refl, Hs. reflexivity.
  - intros env' st' b' Hf' Hu' Hs' Hc.
    rewrite (booking_cancel_path env' uid bid st' b' Hbid Hf' Hu' Hs'). cbn.
    rewrite Hc. reflexivity.
Qed.

Lemma find_action_id bid st b : find_action bid st = Some b -> action_id b = bid.
Proof.
  unfold find_action. intros H. apply find_some in H as [_ H].
  apply String.eqb_eq. exact H.
Qed.

Lemma cancel_writes_actions env uid st b :
  actions (if (0 <? length (delivery_item_ids b))%nat && negb (deliveryRevertError env)
           then set_items_status (fun i => String.eqb (item_user_id i) uid)
                  (delivery_item_ids b) stored
                  (if (0 <? length (pickup_item_ids b))%nat && negb (pickupRevertError env)
                   then set_items_status (fun i => String.eqb (item_user_id i) uid)
                          (pickup_item_ids b) home st else st)
           else (if (0 <? length (pickup_item_ids b))%nat && negb (pickupRevertError env)
                 then set_items_status (fun i => String.eqb (item_user_id i) uid)
                        (pickup_item_ids b) home st else st)) = actions st.
Proof.
  destruct ((0 <? length (pickup_item_ids b))%nat && negb (pickupRevertError env));
  destruct ((0 <? length (delivery_item_ids b))%nat && negb (deliveryRevertError env));
  reflexivity.
Qed.

Lemma find_action_same_actions bid st st' :
  actions st' = actions st -> find_action bid st' = find_action bid st.
Proof. unfold find_action. intros ->. reflexivity. Qed.

(** ** C6: what a customer cancel does *)

(** Claim C6 (as amended).  For a booking owned by the caller and not yet
    canceled: from any status outside pending_items and
    pending_confirmation the call answers 409 and writes nothing; from
    those two, when the final booking update succeeds, it answers
    [{ok: true, status: 'canceled'}] and the booking is canceled, and each
    revert that did not fail has taken effect: every caller-owned item of
    pickup_item_ids that is not also a delivery item is [home], every
    caller-owned item of delivery_item_ids is [stored].  A failed revert is
    logged and the cancel still succeeds. *)
Theorem C6_customer_cancel env uid bid st b :
  bid <> "" -> find_action bid st = Some b -> user_id b = uid ->
  status b <> canceled ->
  (~ In (status b) CUSTOMER_CANCELABLE_STATES ->
     code (fst (booking_cancel env uid bid st)) = 409%Z /\
     snd (booking_cancel env uid bid st) = st) /\
  (In (status b) CUSTOMER_CANCELABLE_STATES -> cancelError env = false ->
     fst (booking_cancel env uid bid st) = mkResponse 200 (BOkStatus canceled) /\
     find_action bid (snd (booking_cancel env uid bid st)) = Some (canceled_row b) /\
     (pickupRevertError env = false ->
        forall i, In i (items (snd (booking_cancel env uid bid st))) ->
        item_user_id i = uid -> In (item_id i) (pickup_item_ids b) ->
        ~ In (item_id i) (delivery_item_ids b) -> item_st i = home) /\
     (deliveryRevertError env = false ->
        forall i, In i (items (snd (booking_cancel env uid bid st))) ->
        item_user_id i = uid -> In (item_id i) (delivery_item_ids b) ->
        item_st i = stored)).
Proof.
  intros Hbid Hf Hu Hnc. split.
  - intros Hs. unfold booking_cancel.
    assert (Hb := Hbid). apply String.eqb_neq in Hb.
    rewrite Hb, Hf, Hu, String.eqb_refl.
    destruct (status b); cbn in *; try congruence; try (exfalso; tauto);
      split; reflexivity.
  - intros Hs Hc. rewrite (booking_cancel_path env uid bid st b Hbid Hf Hu Hs).
    cbv zeta. rewrite Hc. cbn [fst snd]. split; [reflexivity|]. split.
    + rewrite find_action_log. apply find_action_update.
      * rewrite find_action_same_actions with (st := st); [exact Hf|].
        apply cancel_writes_actions.
      * rewrite (find_action_id _ _ _ Hf), Hu, !String.eqb_refl. reflexivity.
      * reflexivity.
    + split.
      * intros Hpe i Hi Hown Hp Hd. simpl in Hi.
        destruct ((0 <? length (delivery_item_ids b))%nat
                  && negb (deliveryRevertError env)).
        -- apply set_items_status_In in Hi as [i0 [Hi0 [Hid [Hus Hst]]]].
           rewrite <- Hid in Hst.
           assert (mem (item_id i) (delivery_item_ids b) = false) as Hm
             by (apply mem_false_not_In; exact Hd).
           rewrite Hm in Hst. cbn in Hst. rewrite Hst.
           rewrite Hpe in Hi0.
           assert (0 < length (pickup_item_ids b))%nat
             by (destruct (pickup_item_ids b); [destruct Hp|cbn; lia]).
           replace ((0 <? length (pickup_item_ids b))%nat) with true in Hi0
             by (symmetry; apply Nat.ltb_lt; lia).
           cbn in Hi0.
           apply set_items_status_In in Hi0 as [i1 [_ [Hid1 [Hus1 Hst1]]]].
           rewrite Hst1. rewrite <- Hid1, <- Hid.
           replace (mem (item_id i) (pickup_item_ids b)) with true
             by (symmetry; apply mem_In; exact Hp).
           rewrite <- Hus1, <- Hus, Hown, String.eqb_refl. reflexivity.
        -- rewrite Hpe in Hi.
           assert (0 < length (pickup_item_ids b))%nat
             by (destruct (pickup_item_ids b); [destruct Hp|cbn; lia]).
           replace ((0 <? length (pickup_item_ids b))%nat) with true in Hi
             by (symmetry; apply Nat.ltb_lt; lia).
           cbn in Hi.
           apply set_items_status_In in Hi as [i1 [_ [Hid1 [Hus1 Hst1]]]].
           rewrite Hst1. rewrite <- Hid1.
           replace (mem (item_id i) (pickup_item_ids b)) with true
             by (symmetry; apply mem_In; exact Hp).
           rewrite <- Hus1, Hown, String.eqb_refl. reflexivity.
      * intros Hde i Hi Hown Hd. simpl in Hi.
        rewrite Hde in Hi.
        assert (0 < length (delivery_item_ids b))%nat
          by (destruct (delivery_item_ids b); [destruct Hd|cbn; lia]).
        replace ((0 <? length (delivery_item_ids b))%nat) with true in Hi
          by (symmetry; apply Nat.ltb_lt; lia).
        cbn in Hi.
        apply set_items_status_In in Hi as [i1 [_ [Hid1 [Hus1 Hst1]]]].
        rewrite Hst1. rewrite <- Hid1.
        replace (mem (item_id i) (delivery_item_ids b)) with true
          by (symmetry; apply mem_In; exact Hd).
        rewrite <- Hus1, Hown, String.eqb_refl. reflexivity.
Qed.

(** Claim C6 fails as stated: with the pickup revert failing, the cancel
    still succeeds but the pickup item is not reverted to [home]. *)
Lemma C6_counterexample :
  let st := {| actions := [mkAction "B1" "U1" pending_confirmation pickup ["I1"] []];
               items := [mkItem "I1" "U1" scheduled];
               profiles := []; audit := []; outbox := [] |} in
  let env := mkCancelEnv true false false in
  fst (booking_cancel env "U1" "B1" st) = mkResponse 200 (BOkStatus canceled) /\
  find_action "B1" (snd (booking_cancel env "U1" "B1" st)) =
    Some (mkAction "B1" "U1" canceled pickup ["I1"] []) /\
  item_status_of "I1" (snd (booking_cancel env "U1" "B1" st)) = Some scheduled.
Proof. vm_compute. repeat split. Qed.

(** ** C7: ownership mismatch *)

(** Claim C7 (as amended).  Customer cancel answers a booking owned by
    someone else exactly as a missing booking (404 "Booking not found",
    nothing written).  Item selection does not: a missing booking gets
    404 "Action not found", another customer's booking a distinct 403
    "Forbidden: Action does not belong to user"; neither writes anything. *)
Theorem C7_ownership_responses :
  (forall env uid bid st,
     bid <> "" ->
     (find_action bid st = None \/
      exists b, find_action bid st = Some b /\ user_id b <> uid) ->
     booking_cancel env uid bid st = (not_found_booking, st)) /\
  (forall env uid bid sel st,
     bid <> "" -> find_action bid st = None ->
     update_booking_items env uid bid sel st =
       (mkResponse 404 (BError "Action not found"), st)) /\
  (forall env uid bid sel st b,
     bid <> "" -> find_action bid st = Some b -> user_id b <> uid ->
     update_booking_items env uid bid sel st =
       (mkResponse 403 (BError "Forbidden: Action does not belong to user"), st)).
Proof.
  split; [|split].
  - intros env uid bid st Hbid Hcase. unfold booking_cancel.
    apply String.eqb_neq in Hbid. rewrite Hbid.
    destruct Hcase as [Hn | [b [Hf Hu]]].
    + rewrite Hn. reflexivity.
    + rewrite Hf. apply String.eqb_neq in Hu. rewrite Hu. reflexivity.
  - intros env uid bid sel st Hbid Hn. unfold update_booking_items.
    apply String.eqb_neq in Hbid. rewrite Hbid, Hn. reflexivity.
  - intros env uid bid sel st b Hbid Hf Hu. unfold update_booking_items.
    apply String.eqb_neq in Hbid. apply String.eqb_neq in Hu.
    rewrite Hbid, Hf, Hu. reflexivity.
Qed.

(** Claim C7 fails as stated: selecting items on U1's booking as U2 gets a
    different answer (403) from selecting on a booking that does not exist. *)
Lemma C7_counterexample :
  fst (update_booking_items select_ok_env "U2" "B1" [] sample_store) =
    mkResponse 403 (BError "Forbidden: Action does not belong to user") /\
  fst (update_booking_items select_ok_env "U2" "B9" [] sample_store) =
    mkResponse 404 (BError "Action not found").
Proof. split; reflexivity. Qed.

(** ** C10: failed item reverts do not fail a cancel *)

(** Claim C10.  Once a cancel reaches its writes, the outcome of the two
    item reverts has no influence on the answer, on the booking rows or on
    the audit log; when the final booking update succeeds the answer is
    [{ok: true, status: 'canceled'}] and the booking is canceled, whatever
    the reverts did. *)
Theorem C10_revert_failure_ignored env env' uid bid st b :
  bid <> "" -> find_action bid st = Some b -> user_id b = uid ->
  In (status b) CUSTOMER_CANCELABLE_STATES ->
  cancelError env' = cancelError env ->
  fst (booking_cancel env' uid bid st) = fst (booking_cancel env uid bid st) /\
  actions (snd (booking_cancel env' uid bid st)) =
    actions (snd (booking_cancel env uid bid st)) /\
  audit (snd (booking_cancel env' uid bid st)) =
    audit (snd (booking_cancel env uid bid st)) /\
  (cancelError env = false ->
     fst (booking_cancel env uid bid st) = mkResponse 200 (BOkStatus canceled) /\
     find_action bid (snd (booking_cancel env uid bid st)) = Some (canceled_row b)).
Proof.
  intros Hbid Hf Hu Hs Hce.
  rewrite (booking_cancel_path env uid bid st b Hbid Hf Hu Hs).
  rewrite (booking_cancel_path env' uid bid st b Hbid Hf Hu Hs).
  cbv zeta. rewrite Hce.
  destruct (cancelError env) eqn:Hc.
  - cbn [fst snd]. split; [reflexivity|]. split.
    + rewrite !cancel_writes_actions. reflexivity.
    + split; [|discriminate].
      destruct ((0 <? length (pickup_item_ids b))%nat && negb (pickupRevertError env));
      destruct ((0 <? length (delivery_item_ids b))%nat && negb (deliveryRevertError env));
      destruct ((0 <? length (pickup_item_ids b))%nat && negb (pickupRevertError env'));
      destruct ((0 <? length (delivery_item_ids b))%nat && negb (deliveryRevertError env'));
      reflexivity.
  - cbn [fst snd]. split; [reflexivity|]. split.
    + cbn [actions log_booking_event update_actions].
      rewrite !cancel_writes_actions. reflexivity.
    + split.
      * destruct ((0 <? length (pickup_item_ids b))%nat && negb (pickupRevertError env));
        destruct ((0 <? length (delivery_item_ids b))%nat && negb (deliveryRevertError env));
        destruct ((0 <? length (pickup_item_ids b))%nat && negb (pickupRevertError env'));
        destruct ((0 <? length (delivery_item_ids b))%nat && negb (deliveryRevertError env'));
        reflexivity.
      * intros _. split; [reflexivity|].
        rewrite find_action_log. apply find_action_update.
        -- rewrite find_action_same_actions with (st := st); [exact Hf|].
           apply cancel_writes_actions.
        -- rewrite (find_action_id _ _ _ Hf), Hu, !String.eqb_refl. reflexivity.
        -- reflexivity.
Qed.

(** ** The partitioner *)

Lemma partition_step_eq prevP prevD p d it :
  partition_step prevP prevD (p, d) it =
  (p ++ (if to_pickup prevP prevD it then [item_id it] else []),
   d ++ (if to_delivery prevP prevD it then [item_id it] else [])).
Proof.
  unfold partition_step, to_pickup, to_delivery.
  destruct (item_st it); rewrite ?app_nil_r; try reflexivity.
  destruct (mem (item_id it) prevP); cbn; rewrite ?app_nil_r; [reflexivity|].
  destruct (mem (item_id it) prevD); cbn; rewrite ?app_nil_r; reflexivity.
Qed.

Lemma partition_fold prevP prevD its p d :
  fold_left (partition_step prevP prevD) its (p, d) =
  (p ++ map item_id (filter (to_pickup prevP prevD) its),
   d ++ map item_id (filter (to_delivery prevP prevD) its)).
Proof.
  revert p d. induction its as [|it its IH]; intros p d; cbn [fold_left filter map].
  - rewrite !app_nil_r. reflexivity.
  - rewrite partition_step_eq, IH.
    destruct (to_pickup prevP prevD it), (to_delivery prevP prevD it);
      cbn; rewrite <- ?app_assoc; reflexivity.
Qed.

Lemma partition_items_filter prevP prevD its :
  partition_items prevP prevD its =
  (map item_id (filter (to_pickup prevP prevD) its),
   map item_id (filter (to_delivery prevP prevD) its)).
Proof. unfold partition_items. apply partition_fold. Qed.

(** The v1.0 loop is the v1.1 loop on a booking with no previous items. *)
Lemma partition_items_v10_nil its :
  partition_items_v10 its = partition_items [] [] its.
Proof.
  unfold partition_items_v10, partition_items.
  generalize (@nil string, @nil string) as acc.
  induction its as [|it its IH]; intros acc; cbn; [reflexivity|].
  rewrite IH; f_equal; destruct acc as [p d]; destruct (item_st it); reflexivity.
Qed.

Lemma to_pickup_delivery_excl prevP prevD i :
  to_pickup prevP prevD i = true -> to_delivery prevP prevD i = false.
Proof.
  unfold to_pickup, to_delivery. destruct (item_st i); try discriminate; auto.
  intros ->. reflexivity.
Qed.

Lemma NoDup_map_unique (l : list item) (x y : item) :
  NoDup (map item_id l) -> In x l -> In y l -> item_id x = item_id y -> x = y.
Proof.
  induction l as [|h t IH]; cbn; [tauto|].
  intros Hnd Hx Hy Heq. inversion Hnd as [|? ? Hnin Hnd']; subst.
  destruct Hx as [<-|Hx], Hy as [<-|Hy]; auto.
  - exfalso. apply Hnin. rewrite Heq. apply in_map. exact Hy.
  - exfalso. apply Hnin. rewrite <- Heq. apply in_map. exact Hx.
Qed.

Lemma NoDup_map_filter (f : item -> bool) (l : list item) :
  NoDup (map item_id l) -> NoDup (map item_id (filter f l)).
Proof.
  induction l as [|h t IH]; cbn; [auto|].
  intros Hnd. inversion Hnd as [|? ? Hnin Hnd']; subst.
  destruct (f h); cbn; [|auto].
  constructor; [|auto].
  intros Hin. apply Hnin. apply in_map_iff in Hin as [y [Hy Hin]].
  apply filter_In in Hin as [Hin _]. rewrite <- Hy. apply in_map. exact Hin.
Qed.

(** No id lands in both sets, when the fetched rows have distinct ids. *)
Lemma partition_disjoint prevP prevD its :
  NoDup (map item_id its) ->
  forall x, In x (fst (partition_items prevP prevD its)) ->
            ~ In x (snd (partition_items prevP prevD its)).
Proof.
  rewrite partition_items_filter. cbn. intros Hnd x Hp Hd.
  apply in_map_iff in Hp as [i1 [H1 Hi1]]. apply in_map_iff in Hd as [i2 [H2 Hi2]].
  apply filter_In in Hi1 as [Hi1 Hp1]. apply filter_In in Hi2 as [Hi2 Hd2].
  assert (i1 = i2) as <- by (apply (NoDup_map_unique its); congruence).
  rewrite (to_pickup_delivery_excl _ _ _ Hp1) in Hd2. discriminate.
Qed.

(** ** Invariant: disjoint pickup and delivery sets *)

Lemma item_sets_update (p : action -> bool) (f : action -> action) st :
  (forall x, action_id (f x) = action_id x /\ pickup_item_ids (f x) = pickup_item_ids x
             /\ delivery_item_ids (f x) = delivery_item_ids x) ->
  item_sets (update_actions p f st) = item_sets st.
Proof.
  intros Hf. unfold item_sets, update_actions. cbn [actions].
  rewrite map_map. apply map_ext. intros x.
  destruct (p x); [|reflexivity].
  destruct (Hf x) as [-> [-> ->]]. reflexivity.
Qed.

Lemma item_sets_disjoint st st' :
  item_sets st' = item_sets st -> bookings_disjoint st -> bookings_disjoint st'.
Proof.
  intros Heq Hinv a Ha x Hp Hd.
  assert (In (action_id a, pickup_item_ids a, delivery_item_ids a) (item_sets st'))
    as Hin by (unfold item_sets; apply (in_map (fun a => (action_id a, pickup_item_ids a,
                                                  delivery_item_ids a))); exact Ha).
  rewrite Heq in Hin. unfold item_sets in Hin.
  apply in_map_iff in Hin as [a0 [H0 Ha0]]. injection H0 as _ Hp0 Hd0.
  apply (Hinv a0 Ha0 x); congruence.
Qed.

Lemma item_sets_log ev st : item_sets (log_booking_event ev st) = item_sets st.
Proof. reflexivity. Qed.

Lemma item_sets_items p ids x st : item_sets (set_items_status p ids x st) = item_sets st.
Proof. reflexivity. Qed.

Ltac item_sets_simpl :=
  repeat first [ rewrite item_sets_log | rewrite item_sets_items
               | rewrite item_sets_update by (intros; repeat split) ].

Lemma booking_cancel_item_sets env uid bid st :
  item_sets (snd (booking_cancel env uid bid st)) = item_sets st.
Proof.
  unfold booking_cancel.
  destruct (String.eqb bid ""); [reflexivity|].
  destruct (find_action bid st) as [b|]; [|reflexivity].
  destruct (negb (String.eqb (user_id b) uid)); [reflexivity|].
  destruct (action_status_beq (status b) canceled); [reflexivity|].
  destruct (negb (existsb (action_status_beq (status b)) CUSTOMER_CANCELABLE_STATES));
    [reflexivity|].
  destruct ((0 <? length (pickup_item_ids b))%nat && negb (pickupRevertError env));
  destruct ((0 <? length (delivery_item_ids b))%nat && negb (deliveryRevertError env));
  destruct (cancelError env); cbn [snd]; item_sets_simpl; reflexivity.
Qed.

Lemma complete_step_item_sets env aid ph st :
  item_sets (snd (complete_step env aid ph st)) = item_sets st.
Proof.
  destruct ph as [|a|r]; cbn [complete_step]; [| |reflexivity].
  - unfold complete_load.
    destruct (find_action aid st) as [a|]; [|reflexivity].
    destruct (negb (completable (status a))); [reflexivity|].
    destruct (service a);
      destruct (0 <? length _)%nat; try reflexivity;
      destruct (itemUpdateError env); reflexivity.
  - unfold complete_cas.
    destruct (completeError env); [reflexivity|].
    destruct (find_action aid st) as [cur|]; [|reflexivity].
    destruct (completable (status cur)); [|reflexivity].
    cbn [snd]. item_sets_simpl. reflexivity.
Qed.

Lemma actions_cond_items (c : bool) p ids x st :
  actions (if c then set_items_status p ids x st else st) = actions st.
Proof. destruct c; reflexivity. Qed.

Lemma apply_item_changes_actions env prevP prevD p d st :
  actions (apply_item_changes env prevP prevD p d st) = actions st.
Proof.
  unfold apply_item_changes. cbv zeta. rewrite !actions_cond_items. reflexivity.
Qed.

Lemma select_preserves_disjoint env uid bid sel st :
  NoDup (map item_id (items st)) -> bookings_disjoint st ->
  bookings_disjoint (snd (update_booking_items env uid bid sel st)).
Proof.
  intros Hnd Hinv. unfold update_booking_items.
  destruct (String.eqb bid ""); [exact Hinv|].
  destruct (find_action bid st) as [a|]; [|exact Hinv].
  destruct (negb (String.eqb (user_id a) uid)); [exact Hinv|].
  destruct (negb (existsb _ _)); [exact Hinv|].
  destruct (itemsError env); [exact Hinv|].
  destruct (partition_items (pickup_item_ids a) (delivery_item_ids a)
              (fetch_items sel st)) as [p d] eqn:Hpd.
  destruct (negb _ && negb _); [exact Hinv|].
  destruct (updateError env); [exact Hinv|].
  cbn [snd]. intros a' Ha'. unfold log_booking_event in Ha'.
  cbn [actions] in Ha'. rewrite apply_item_changes_actions in Ha'.
  cbn [actions update_actions] in Ha'.
  apply in_map_iff in Ha' as [x [Hx Hin]].
  destruct (String.eqb (action_id x) bid); [|subst; apply Hinv; exact Hin].
  subst a'. unfold sets_disjoint. cbn [pickup_item_ids delivery_item_ids].
  intros y Hp Hd.
  refine (partition_disjoint (pickup_item_ids a) (delivery_item_ids a)
            (fetch_items sel st) _ y _ _).
  - apply NoDup_map_filter. exact Hnd.
  - rewrite Hpd. exact Hp.
  - rewrite Hpd. exact Hd.
Qed.

(** ** C9: disjoint pickup and delivery sets *)

(** Claim C9 (as amended).  The partitioner puts no id in both sets when
    the fetched rows have distinct ids (they are primary-key rows): a
    [home] item goes to pickup, a [stored] one to delivery, a [scheduled]
    one to pickup when it was a pickup item of the booking and otherwise to
    delivery when it was a delivery item, anything else nowhere; the v1.0
    loop (home to pickup, stored to delivery only) is disjoint as well.
    Hence item selection keeps every booking's sets disjoint, and customer
    cancel and each step of complete-service leave all sets unchanged. *)
Theorem C9_sets_disjoint :
  (forall prevP prevD its,
     partition_items prevP prevD its =
     (map item_id (filter (to_pickup prevP prevD) its),
      map item_id (filter (to_delivery prevP prevD) its))) /\
  (forall prevP prevD its, NoDup (map item_id its) ->
     forall x, In x (fst (partition_items prevP prevD its)) ->
               ~ In x (snd (partition_items prevP prevD its))) /\
  (forall its, NoDup (map item_id its) ->
     forall x, In x (fst (partition_items_v10 its)) ->
               ~ In x (snd (partition_items_v10 its))) /\
  (forall env uid bid sel st,
     NoDup (map item_id (items st)) -> bookings_disjoint st ->
     bookings_disjoint (snd (update_booking_items env uid bid sel st))) /\
  (forall env uid bid st,
     item_sets (snd (booking_cancel env uid bid st)) = item_sets st) /\
  (forall env aid ph st,
     item_sets (snd (complete_step env aid ph st)) = item_sets st).
Proof.
  split; [exact partition_items_filter|].
  split; [exact partition_disjoint|].
  split; [intros its; rewrite partition_items_v10_nil; apply partition_disjoint|].
  split; [exact select_preserves_disjoint|].
  split; [exact booking_cancel_item_sets|exact complete_step_item_sets].
Qed.

(** Claim C9's rule fails as stated: a [scheduled] item that was a pickup
    item of the booking is assigned to pickup, not to neither set. *)
Lemma C9_counterexample :
  partition_items ["I1"] [] [mkItem "I1" "U1" scheduled] = (["I1"], []).
Proof. reflexivity. Qed.

(** ** Item selection round trip *)

Lemma select_path env uid bid sel st a p d :
  bid <> "" -> find_action bid st = Some a -> user_id a = uid ->
  In (status a) [pending_items; pending_confirmation] ->
  itemsError env = false -> updateError env = false ->
  partition_items (pickup_item_ids a) (delivery_item_ids a) (fetch_items sel st) = (p, d) ->
  update_booking_items env uid bid sel st =
  (mkResponse 200 (BOkAction (mkAction (action_id a) (user_id a) pending_confirmation
                                       (service a) p d) (length p) (length d)),
   log_booking_event "items_updated"
     (apply_item_changes env (pickup_item_ids a) (delivery_item_ids a) p d
        (update_actions (fun x => String.eqb (action_id x) bid)
           (fun x => mkAction (action_id x) (user_id x) pending_confirmation
                              (service x) p d) st))).
Proof.
  intros Hbid Hf Hu Hs Hie Hue Hpd. unfold update_booking_items.
  apply String.eqb_neq in Hbid. rewrite Hbid, Hf, Hu, String.eqb_refl, Hie, Hpd.
  destruct Hs as [Hs|[Hs|[]]]; rewrite <- Hs; cbn; rewrite Hue; reflexivity.
Qed.

Lemma filter_filter_and {A} (f g : A -> bool) (l : list A) :
  filter f (filter g l) = filter (fun x => g x && f x) l.
Proof.
  induction l as [|h t IH]; cbn; [reflexivity|].
  destruct (g h); cbn; [destruct (f h)|]; cbn; rewrite ?IH; reflexivity.
Qed.

Lemma filter_all_false {A} (f : A -> bool) (l : list A) :
  (forall x, In x l -> f x = false) -> filter f l = [].
Proof.
  induction l as [|h t IH]; cbn; intros H; [reflexivity|].
  rewrite (H h (or_introl eq_refl)). apply IH. intros x Hx. apply H. right. exact Hx.
Qed.

Lemma filter_eqb_single (l : list item) (x : string) :
  NoDup (map item_id l) -> In x (map item_id l) ->
  map item_id (filter (fun i => String.eqb (item_id i) x) l) = [x].
Proof.
  induction l as [|h t IH]; cbn; [tauto|].
  intros Hnd Hin. inversion Hnd as [|? ? Hnin Hnd']; subst.
  destruct (String.eqb_spec (item_id h) x) as [Hx|Hx]; cbn.
  - subst x. f_equal.
    rewrite filter_all_false; [reflexivity|].
    intros i Hi. apply String.eqb_neq. intros Heq. apply Hnin.
    rewrite <- Heq. apply in_map. exact Hi.
  - apply IH; [exact Hnd'|]. destruct Hin as [Hin|Hin]; [congruence|exact Hin].
Qed.

(** The selected rows that pass [f] are at most the one row [r]. *)
Lemma fetch_filter_one (sel : list string) (f : item -> bool) (st : store) (r : item) :
  NoDup (map item_id (items st)) -> In r (items st) ->
  (forall i, In i (items st) -> mem (item_id i) sel && f i = true -> i = r) ->
  map item_id (filter f (fetch_items sel st)) =
  if mem (item_id r) sel && f r then [item_id r] else [].
Proof.
  intros Hnd Hr Hu. unfold fetch_items. rewrite filter_filter_and.
  destruct (mem (item_id r) sel && f r) eqn:Er.
  - rewrite (filter_ext_in _ (fun i => String.eqb (item_id i) (item_id r))).
    + apply filter_eqb_single; [exact Hnd|]. apply in_map. exact Hr.
    + intros i Hi. destruct (String.eqb_spec (item_id i) (item_id r)) as [E|E].
      * rewrite (NoDup_map_unique _ _ _ Hnd Hi Hr E). exact Er.
      * destruct (mem (item_id i) sel && f i) eqn:Ei; [|reflexivity].
        rewrite (Hu i Hi Ei) in E. contradiction.
  - rewrite filter_all_false; [reflexivity|]. intros i Hi.
    destruct (mem (item_id i) sel && f i) eqn:Ei; [|reflexivity].
    rewrite (Hu i Hi Ei) in Ei. congruence.
Qed.

Lemma item_status_of_In (st : store) (r : item) :
  NoDup (map item_id (items st)) -> In r (items st) ->
  item_status_of (item_id r) st = Some (item_st r).
Proof.
  unfold item_status_of. intros Hnd Hr.
  destruct (find (fun i => String.eqb (item_id i) (item_id r)) (items st)) eqn:E.
  - apply find_some in E as [Hi Heq]. apply String.eqb_eq in Heq.
    rewrite (NoDup_map_unique _ _ _ Hnd Hi Hr Heq). reflexivity.
  - eapply find_none in E; [|exact Hr]. rewrite String.eqb_refl in E. discriminate.
Qed.

Lemma set_items_status_hit (ids : list string) (s : item_status) (st : store) (r : item) :
  In r (items st) -> mem (item_id r) ids = true ->
  In (mkItem (item_id r) (item_user_id r) s)
     (items (set_items_status (fun _ => true) ids s st)).
Proof.
  intros Hr Hm. cbn [items set_items_status].
  apply (in_map (fun i => if mem (item_id i) ids && true
                          then mkItem (item_id i) (item_user_id i) s else i)) in Hr.
  rewrite Hm in Hr. exact Hr.
Qed.

Lemma set_items_status_miss (ids : list string) (s : item_status) (st : store) (r : item) :
  In r (items st) -> mem (item_id r) ids = false ->
  In r (items (set_items_status (fun _ => true) ids s st)).
Proof.
  intros Hr Hm. cbn [items set_items_status].
  apply (in_map (fun i => if mem (item_id i) ids && true
                          then mkItem (item_id i) (item_user_id i) s else i)) in Hr.
  rewrite Hm in Hr. exact Hr.
Qed.

Lemma filter_not_mem_self (l : list string) :
  filter (fun x => negb (mem x l)) l = [].
Proof.
  apply filter_all_false. intros x Hx.
  rewrite (proj2 (mem_In x l) Hx). reflexivity.
Qed.

(** Re-submitting the current assignment writes no item. *)
Lemma apply_item_changes_same env p d st :
  apply_item_changes env p d p d st = st.
Proof.
  unfold apply_item_changes. rewrite !filter_not_mem_self. reflexivity.
Qed.

Ltac mem_true := apply mem_In; cbn; tauto.
Ltac mem_false := apply mem_false_not_In; cbn; intuition congruence.

Lemma apply_item_changes_first env A B st :
  addError env = false ->
  apply_item_changes env [] [] [A] [B] st =
  set_items_status (fun _ => true) [A; B] scheduled st.
Proof. intros He. unfold apply_item_changes. cbn. rewrite He. reflexivity. Qed.

Lemma apply_item_changes_drop env A B st :
  removePickupError env = false ->
  apply_item_changes env [A] [B] [] [B] st =
  set_items_status (fun _ => true) [A] home st.
Proof.
  intros He. unfold apply_item_changes. cbn. rewrite String.eqb_refl. cbn.
  rewrite He. reflexivity.
Qed.

(** Two rows of the selection with distinct ids [A] and [B]: the rows
    selected by [sel] are among them. *)
Lemma sel2_cases (st : store) (sel : list string) A uA sA B uB sB i :
  NoDup (map item_id (items st)) ->
  In (mkItem A uA sA) (items st) -> In (mkItem B uB sB) (items st) ->
  incl sel [A; B] ->
  In i (items st) -> mem (item_id i) sel = true ->
  i = mkItem A uA sA \/ i = mkItem B uB sB.
Proof.
  intros Hnd HA HB Hsel Hi Hm. apply mem_In, Hsel in Hm.
  destruct Hm as [Hm|[Hm|[]]]; [left|right];
    eapply NoDup_map_unique; eauto.
Qed.

Lemma partition_call_first st A uA B uB :
  NoDup (map item_id (items st)) -> A <> B ->
  In (mkItem A uA home) (items st) -> In (mkItem B uB stored) (items st) ->
  partition_items [] [] (fetch_items [A; B] st) = ([A], [B]).
Proof.
  intros Hnd HAB HA HB. rewrite partition_items_filter.
  rewrite (fetch_filter_one _ _ _ (mkItem A uA home)),
          (fetch_filter_one _ _ _ (mkItem B uB stored)); auto; cbn [item_id].
  - replace (mem A [A; B]) with true by (symmetry; mem_true).
    replace (mem B [A; B]) with true by (symmetry; mem_true). reflexivity.
  - intros i Hi Hm. apply andb_prop in Hm as [Hm Hf].
    destruct (sel2_cases st [A; B] A uA home B uB stored i Hnd HA HB
                (incl_refl _) Hi Hm) as [->| ->]; [discriminate|reflexivity].
  - intros i Hi Hm. apply andb_prop in Hm as [Hm Hf].
    destruct (sel2_cases st [A; B] A uA home B uB stored i Hnd HA HB
                (incl_refl _) Hi Hm) as [->| ->]; [reflexivity|discriminate].
Qed.

Lemma partition_call_again st A uA B uB :
  NoDup (map item_id (items st)) -> A <> B ->
  In (mkItem A uA scheduled) (items st) -> In (mkItem B uB scheduled) (items st) ->
  partition_items [A] [B] (fetch_items [A; B] st) = ([A], [B]).
Proof.
  intros Hnd HAB HA HB. rewrite partition_items_filter.
  assert (HmA : mem A [A] = true) by mem_true.
  assert (HmB : mem B [B] = true) by mem_true.
  assert (HmBA : mem B [A] = false) by mem_false.
  rewrite (fetch_filter_one _ _ _ (mkItem A uA scheduled)),
          (fetch_filter_one _ _ _ (mkItem B uB scheduled)); auto; cbn [item_id].
  - replace (mem A [A; B]) with true by (symmetry; mem_true).
    replace (mem B [A; B]) with true by (symmetry; mem_true).
    unfold to_pickup, to_delivery; cbn [item_st item_id].
    rewrite HmA, HmB, HmBA. reflexivity.
  - intros i Hi Hm. apply andb_prop in Hm as [Hm Hf].
    destruct (sel2_cases st [A; B] A uA scheduled B uB scheduled i Hnd HA HB
                (incl_refl _) Hi Hm) as [->| ->]; [|reflexivity].
    unfold to_delivery in Hf; cbn [item_st item_id] in Hf. rewrite HmA in Hf. discriminate.
  - intros i Hi Hm. apply andb_prop in Hm as [Hm Hf].
    destruct (sel2_cases st [A; B] A uA scheduled B uB scheduled i Hnd HA HB
                (incl_refl _) Hi Hm) as [->| ->]; [reflexivity|].
    unfold to_pickup in Hf; cbn [item_st item_id] in Hf. rewrite HmBA in Hf. discriminate.
Qed.

Lemma partition_call_drop st A uA B uB :
  NoDup (map item_id (items st)) -> A <> B ->
  In (mkItem A uA scheduled) (items st) -> In (mkItem B uB scheduled) (items st) ->
  partition_items [A] [B] (fetch_items [B] st) = ([], [B]).
Proof.
  intros Hnd HAB HA HB. rewrite partition_items_filter.
  assert (HmB : mem B [B] = true) by mem_true.
  assert (HmBA : mem B [A] = false) by mem_false.
  rewrite (fetch_filter_one _ _ _ (mkItem B uB scheduled)),
          (fetch_filter_one _ _ _ (mkItem B uB scheduled)); auto; cbn [item_id].
  - unfold to_pickup, to_delivery; cbn [item_st item_id].
    rewrite HmB, HmBA. reflexivity.
  - intros i Hi Hm. apply andb_prop in Hm as [Hm Hf].
    assert (Hsel : incl [B] [A; B]) by (intros x [<-|[]]; right; left; reflexivity).
    destruct (sel2_cases st [B] A uA scheduled B uB scheduled i Hnd HA HB
                Hsel Hi Hm) as [->| ->]; [|reflexivity].
    cbn [item_id] in Hm. apply mem_In in Hm. destruct Hm as [Hm|[]]. congruence.
  - intros i Hi Hm. apply andb_prop in Hm as [Hm Hf].
    assert (Hsel : incl [B] [A; B]) by (intros x [<-|[]]; right; left; reflexivity).
    destruct (sel2_cases st [B] A uA scheduled B uB scheduled i Hnd HA HB
                Hsel Hi Hm) as [->| ->]; [|reflexivity].
    cbn [item_id] in Hm. apply mem_In in Hm. destruct Hm as [Hm|[]]. congruence.
Qed.

(** ** C2: partition round trip *)

(** Claim C2 (update-booking-items v1.1).  A booking with no items yet, a
    row [A] at [home] and a row [B] [stored]: selecting [{A, B}] gives
    pickup [{A}], delivery [{B}] and both rows [scheduled]; selecting
    [{A, B}] again gives the same response, booking and rows; selecting
    [{B}] afterwards puts [A] back [home] and keeps delivery [{B}]. *)
Theorem C2_partition_round_trip uid bid st b A uA B uB :
  bid <> "" -> find_action bid st = Some b -> user_id b = uid ->
  In (status b) [pending_items; pending_confirmation] ->
  pickup_item_ids b = [] -> delivery_item_ids b = [] ->
  NoDup (map item_id (items st)) ->
  In (mkItem A uA home) (items st) -> In (mkItem B uB stored) (items st) ->
  let '(r1, s1) := update_booking_items select_ok_env uid bid [A; B] st in
  let '(r2, s2) := update_booking_items select_ok_env uid bid [A; B] s1 in
  let '(r3, s3) := update_booking_items select_ok_env uid bid [B] s2 in
  (code r1 = 200%Z /\
   find_action bid s1 =
     Some (mkAction bid uid pending_confirmation (service b) [A] [B]) /\
   item_status_of A s1 = Some scheduled /\ item_status_of B s1 = Some scheduled) /\
  (r2 = r1 /\ find_action bid s2 = find_action bid s1 /\ items s2 = items s1) /\
  (code r3 = 200%Z /\
   find_action bid s3 =
     Some (mkAction bid uid pending_confirmation (service b) [] [B]) /\
   item_status_of A s3 = Some home /\ item_status_of B s3 = Some scheduled).
Proof.
  intros Hbid Hf Hu Hs Hp Hd Hnd HA HB.
  assert (HAB : A <> B).
  { intros <-. pose proof (NoDup_map_unique _ _ _ Hnd HA HB eq_refl). congruence. }
  pose proof (find_action_id _ _ _ Hf) as Hid.
  (* first call *)
  assert (Hp1 : partition_items (pickup_item_ids b) (delivery_item_ids b)
                  (fetch_items [A; B] st) = ([A], [B])).
  { rewrite Hp, Hd. exact (partition_call_first st A uA B uB Hnd HAB HA HB). }
  destruct (update_booking_items select_ok_env uid bid [A; B] st) as [r1 s1] eqn:E1.
  rewrite (select_path select_ok_env uid bid [A; B] st b [A] [B] Hbid Hf Hu Hs
             eq_refl eq_refl Hp1) in E1.
  rewrite Hp, Hd, apply_item_changes_first in E1 by reflexivity.
  injection E1 as Er1 Es1.
  set (b1 := mkAction (action_id b) (user_id b) pending_confirmation (service b) [A] [B]).
  assert (Hf1 : find_action bid s1 = Some b1).
  { rewrite <- Es1, find_action_log, find_action_items_writes.
    apply (find_action_update (fun x => String.eqb (action_id x) bid)
             (fun x => mkAction (action_id x) (user_id x) pending_confirmation
                                (service x) [A] [B]) bid st b Hf); [|reflexivity].
    rewrite Hid. apply String.eqb_refl. }
  assert (Hnd1 : NoDup (map item_id (items s1))).
  { rewrite <- Es1. cbn [items log_booking_event].
    rewrite set_items_status_ids. exact Hnd. }
  assert (HA1 : In (mkItem A uA scheduled) (items s1)).
  { rewrite <- Es1.
    apply (set_items_status_hit [A; B] scheduled _ (mkItem A uA home)); [exact HA|mem_true]. }
  assert (HB1 : In (mkItem B uB scheduled) (items s1)).
  { rewrite <- Es1.
    apply (set_items_status_hit [A; B] scheduled _ (mkItem B uB stored)); [exact HB|mem_true]. }
  cbv beta iota.
  (* second call *)
  pose proof (partition_call_again s1 A uA B uB Hnd1 HAB HA1 HB1) as Hp2.
  destruct (update_booking_items select_ok_env uid bid [A; B] s1) as [r2 s2] eqn:E2.
  rewrite (select_path select_ok_env uid bid [A; B] s1 b1 [A] [B] Hbid Hf1 Hu
             (or_intror (or_introl eq_refl)) eq_refl eq_refl Hp2) in E2.
  rewrite apply_item_changes_same in E2.
  injection E2 as Er2 Es2.
  assert (Hf2 : find_action bid s2 = Some b1).
  { rewrite <- Es2, find_action_log.
    apply (find_action_update (fun x => String.eqb (action_id x) bid)
             (fun x => mkAction (action_id x) (user_id x) pending_confirmation
                                (service x) [A] [B]) bid s1 b1 Hf1); [|reflexivity].
    cbn. rewrite Hid. apply String.eqb_refl. }
  assert (Hi2 : items s2 = items s1) by (rewrite <- Es2; reflexivity).
  cbv beta iota.
  (* third call *)
  rewrite <- Hi2 in Hnd1, HA1, HB1.
  pose proof (partition_call_drop s2 A uA B uB Hnd1 HAB HA1 HB1) as Hp3.
  destruct (update_booking_items select_ok_env uid bid [B] s2) as [r3 s3] eqn:E3.
  rewrite (select_path select_ok_env uid bid [B] s2 b1 [] [B] Hbid Hf2 Hu
             (or_intror (or_introl eq_refl)) eq_refl eq_refl Hp3) in E3.
  cbn [pickup_item_ids delivery_item_ids b1] in E3.
  rewrite apply_item_changes_drop in E3 by reflexivity.
  injection E3 as Er3 Es3.
  cbv beta iota.
  assert (Hb1 : b1 = mkAction bid uid pending_confirmation (service b) [A] [B])
    by (unfold b1; rewrite Hid, Hu; reflexivity).
  split; [|split].
  - split; [subst r1; reflexivity|]. split; [rewrite Hf1, Hb1; reflexivity|].
    rewrite Hi2 in Hnd1, HA1, HB1. split.
    + exact (item_status_of_In s1 _ Hnd1 HA1).
    + exact (item_status_of_In s1 _ Hnd1 HB1).
  - split; [subst r1 r2; reflexivity|].
    split; [rewrite Hf2, Hf1; reflexivity|exact Hi2].
  - split; [subst r3; reflexivity|].
    assert (Hnd3 : NoDup (map item_id (items s3))).
    { rewrite <- Es3. cbn [items log_booking_event].
      rewrite set_items_status_ids. exact Hnd1. }
    assert (HA3 : In (mkItem A uA home) (items s3)).
    { rewrite <- Es3.
      apply (set_items_status_hit [A] home _ (mkItem A uA scheduled)); [exact HA1|mem_true]. }
    assert (HB3 : In (mkItem B uB scheduled) (items s3)).
    { rewrite <- Es3.
      apply (set_items_status_miss [A] home _ (mkItem B uB scheduled)); [exact HB1|mem_false]. }
    split; [|split].
    + rewrite <- Es3, find_action_log, find_action_items_writes.
      rewrite (find_action_update (fun x => String.eqb (action_id x) bid)
                 (fun x => mkAction (action_id x) (user_id x) pending_confirmation
                                    (service x) [] [B]) bid s2 b1 Hf2); [|cbn; rewrite Hid; apply String.eqb_refl|reflexivity].
      cbn. rewrite Hid, Hu. reflexivity.
    + exact (item_status_of_In s3 _ Hnd3 HA3).
    + exact (item_status_of_In s3 _ Hnd3 HB3).
Qed.

Lemma C2_partition_round_trip_witness :
  let '(r1, s1) := update_booking_items select_ok_env "U1" "B1" ["I1"; "I2"] sample_store in
  let '(r2, s2) := update_booking_items select_ok_env "U1" "B1" ["I1"; "I2"] s1 in
  let '(r3, s3) := update_booking_items select_ok_env "U1" "B1" ["I2"] s2 in
  (code r1 = 200%Z /\
   find_action "B1" s1 =
     Some (mkAction "B1" "U1" pending_confirmation pickup ["I1"] ["I2"]) /\
   item_status_of "I1" s1 = Some scheduled /\ item_status_of "I2" s1 = Some scheduled) /\
  (r2 = r1 /\ find_action "B1" s2 = find_action "B1" s1 /\ items s2 = items s1) /\
  (code r3 = 200%Z /\
   find_action "B1" s3 =
     Some (mkAction "B1" "U1" pending_confirmation pickup [] ["I2"]) /\
   item_status_of "I1" s3 = Some home /\ item_status_of "I2" s3 = Some scheduled).
Proof.
  apply (C2_partition_round_trip "U1" "B1" sample_store
           (mkAction "B1" "U1" pending_items pickup [] []) "I1" "U1" "I2" "U1");
    [discriminate|reflexivity|reflexivity|left; reflexivity|reflexivity|reflexivity
    | |simpl; tauto|simpl; tauto].
  simpl. constructor; [simpl; intuition discriminate|].
  constructor; [simpl; tauto|constructor].
Defined.

(** ** C3: completion at most once *)

Lemma replace_nth_same {A} (i : nat) (l : list A) (d : A) :
  replace_nth i (nth i l d) l = l.
Proof.
  revert i; induction l as [|h t IH]; intros [|i]; cbn; [reflexivity..| |].
  - reflexivity.
  - f_equal. apply IH.
Qed.

Lemma count_replace_nth (i : nat) (x : complete_phase) (l : list complete_phase) :
  (i < length l)%nat -> is_completed_resp (nth i l CStart) = false ->
  count_completed (replace_nth i x l) =
  (count_completed l + if is_completed_resp x then 1 else 0)%nat.
Proof.
  unfold count_completed. revert i; induction l as [|h t IH]; intros [|i] Hi Hn;
    cbn in *; try lia.
  - rewrite Hn. destruct (is_completed_resp x); cbn; lia.
  - destruct (is_completed_resp h); cbn; rewrite (IH i) by (auto; lia); lia.
Qed.

Lemma complete_load_effect env aid st :
  let '(ph, st') := complete_load env aid st in
  is_completed_resp ph = false /\ actions st' = actions st /\ outbox st' = outbox st /\
  audit st' = audit st.
Proof.
  unfold complete_load. destruct (find_action aid st) as [a|]; [|auto].
  destruct (negb (completable (status a))); [auto|].
  destruct (service a);
    [destruct (0 <? length (pickup_item_ids a))%nat |
     destruct (0 <? length (delivery_item_ids a))%nat];
    try destruct (itemUpdateError env); auto.
Qed.

(** The conditional update of complete-service: either nothing changes
    and the answer is not the one of a matched update, or the booking's
    current row was completable and is now [completed].  No log entry and
    no email either way. *)
Lemma complete_cas_effect env aid a st :
  let '(ph, st') := complete_cas env aid a st in
  outbox st' = outbox st /\ audit st' = audit st /\
  ((is_completed_resp ph = false /\ st' = st) \/
   (is_completed_resp ph = true /\ completeError env = false /\
    (exists cur, find_action aid st = Some cur /\ completable (status cur) = true /\
                 find_action aid st' = Some (mark_completed cur)))).
Proof.
  unfold complete_cas. destruct (completeError env) eqn:He; [auto|].
  destruct (find_action aid st) as [cur|] eqn:Hf; [|auto].
  destruct (completable (status cur)) eqn:Hc; [|auto].
  split; [reflexivity|]. split; [reflexivity|].
  right. split; [reflexivity|]. split; [reflexivity|].
  exists cur. split; [reflexivity|]. split; [exact Hc|].
  apply find_action_update; [exact Hf| |reflexivity].
  rewrite (find_action_id _ _ _ Hf), String.eqb_refl, Hc. reflexivity.
Qed.

Lemma run_complete_inv envs aid sched :
  forall ths st,
  (count_completed ths = 0%nat \/
   (count_completed ths = 1%nat /\
    exists c, find_action aid st = Some c /\ completable (status c) = false)) ->
  let '(ths', st') := run_complete envs aid sched ths st in
  (count_completed ths' <= 1)%nat /\ outbox st' = outbox st /\ audit st' = audit st.
Proof.
  induction sched as [|i rest IH]; intros ths st Hc; cbn [run_complete].
  - split; [destruct Hc as [Hc|[Hc _]]; lia|auto].
  - destruct (i <? length ths)%nat eqn:Hi; [|exact (IH ths st Hc)].
    apply Nat.ltb_lt in Hi.
    set (env := nth i envs (mkCompleteEnv false false)).
    destruct (nth i ths CStart) as [|a|r] eqn:Hn; cbn [complete_step].
    + pose proof (complete_load_effect env aid st) as He.
      destruct (complete_load env aid st) as [ph st'].
      destruct He as [Hph [Ha [Hob Hau]]].
      pose proof (IH (replace_nth i ph ths) st') as K.
      destruct (run_complete envs aid rest (replace_nth i ph ths) st') as [ths2 st2].
      rewrite <- Hob, <- Hau. apply K.
      rewrite count_replace_nth, Hph by (rewrite ?Hn; auto).
      rewrite Nat.add_0_r. destruct Hc as [Hc|[Hc Hx]]; [left; exact Hc|right].
      split; [exact Hc|]. rewrite (find_action_same_actions aid st st' Ha). exact Hx.
    + pose proof (complete_cas_effect env aid a st) as He.
      destruct (complete_cas env aid a st) as [ph st'].
      destruct He as [Hob [Hau He]].
      pose proof (IH (replace_nth i ph ths) st') as K.
      destruct (run_complete envs aid rest (replace_nth i ph ths) st') as [ths2 st2].
      rewrite <- Hob, <- Hau. apply K.
      rewrite count_replace_nth by (rewrite ?Hn; auto).
      destruct He as [[Hph ->]|[Hph [_ [cur [Hf [Hcur Hdone]]]]]].
      * rewrite Hph, Nat.add_0_r. exact Hc.
      * destruct Hc as [Hc|[Hc [c [Hfc Hcc]]]]; [|congruence].
        rewrite Hph. right. split; [lia|].
        exists (mark_completed cur). split; [exact Hdone|reflexivity].
    + rewrite <- Hn, replace_nth_same. exact (IH ths st Hc).
Qed.

(** Claim C3.  The completing update of complete-service only fires while
    the booking's status is still completable: when the conditional update
    finds no completable row the call answers [already_completed] and
    changes nothing.  A call whose update matched is told apart by its
    answer: the [TypeError] of [supabase.rpc(..).catch(..)], answered 500.
    Over any interleaving of any number of concurrent calls on one
    booking, at most one call performs the completing update, and no call
    logs an event or triggers a completion email. *)
Theorem C3_completion_at_most_once :
  (forall env aid a st,
     completeError env = false ->
     (forall cur, find_action aid st = Some cur -> completable (status cur) = false) ->
     complete_cas env aid a st = (CDone (mkResponse 200 BOkAlreadyCompleted), st)) /\
  (forall env aid a st,
     let '(ph, st') := complete_cas env aid a st in
     is_completed_resp ph = true ->
     exists cur, find_action aid st = Some cur /\ completable (status cur) = true /\
                 find_action aid st' = Some (mark_completed cur)) /\
  (forall envs aid sched n st,
     let '(ths, st') := run_complete envs aid sched (repeat CStart n) st in
     (count_completed ths <= 1)%nat /\ outbox st' = outbox st /\ audit st' = audit st).
Proof.
  split; [|split].
  - intros env aid a st He Hnc. unfold complete_cas. rewrite He.
    destruct (find_action aid st) as [cur|] eqn:Hf; [|reflexivity].
    rewrite (Hnc cur eq_refl). reflexivity.
  - intros env aid a st.
    pose proof (complete_cas_effect env aid a st) as He.
    destruct (complete_cas env aid a st) as [ph st'].
    destruct He as [_ [_ [[Hph _]|[_ [_ Hx]]]]]; [congruence|auto].
  - intros envs aid sched n st.
    assert (H0 : count_completed (repeat CStart n) = 0%nat).
    { unfold count_completed. induction n; cbn; auto. }
    exact (run_complete_inv envs aid sched (repeat CStart n) st (or_introl H0)).
Qed.

(** Two calls on a confirmed pickup booking, interleaved so that both pass
    the status check before either updates: the first completes the
    booking and answers 500, the second answers [already_completed]; no
    email is triggered. *)
Example complete_race_sample :
  let st := {| actions := [mkAction "B1" "U1" confirmed pickup ["I1"] []];
               items := [mkItem "I1" "U1" scheduled];
               profiles := [("U1", "u1@example.com")];
               audit := []; outbox := [] |} in
  let '(ths, st') := run_complete [mkCompleteEnv false false; mkCompleteEnv false false]
                       "B1" [0; 1; 0; 1]%nat [CStart; CStart] st in
  map is_completed_resp ths = [true; false] /\
  nth 0 ths CStart = CDone (mkResponse 500 (BError rpc_catch_error)) /\
  nth 1 ths CStart = CDone (mkResponse 200 BOkAlreadyCompleted) /\
  option_map status (find_action "B1" st') = Some completed /\
  outbox st' = [].
Proof. vm_compute. auto. Qed.

(** ** Witnesses of the cancel theorems *)

Lemma C5_cancel_idempotent_witness :
  let st := {| actions := [mkAction "B1" "U1" canceled pickup ["I1"] []];
               items := [mkItem "I1" "U1" home];
               profiles := []; audit := []; outbox := [] |} in
  booking_cancel cancel_ok_env "U1" "B1" st = (mkResponse 200 (BOkStatus canceled), st) /\
  (forall env' st' b', find_action "B1" st' = Some b' -> user_id b' = "U1" ->
     In (status b') CUSTOMER_CANCELABLE_STATES -> cancelError env' = false ->
     fst (booking_cancel env' "U1" "B1" st') = mkResponse 200 (BOkStatus canceled)).
Proof.
  intros st.
  apply (C5_cancel_idempotent cancel_ok_env "U1" "B1" st
           (mkAction "B1" "U1" canceled pickup ["I1"] []));
    [discriminate|reflexivity|reflexivity|reflexivity].
Defined.

Lemma C6_customer_cancel_witness :
  let st := {| actions := [mkAction "B1" "U1" pending_confirmation pickup ["I1"] []];
               items := [mkItem "I1" "U1" scheduled];
               profiles := []; audit := []; outbox := [] |} in
  let b := mkAction "B1" "U1" pending_confirmation pickup ["I1"] [] in
  (~ In (status b) CUSTOMER_CANCELABLE_STATES ->
     code (fst (booking_cancel cancel_ok_env "U1" "B1" st)) = 409%Z /\
     snd (booking_cancel cancel_ok_env "U1" "B1" st) = st) /\
  (In (status b) CUSTOMER_CANCELABLE_STATES -> cancelError cancel_ok_env = false ->
     fst (booking_cancel cancel_ok_env "U1" "B1" st) = mkResponse 200 (BOkStatus canceled) /\
     find_action "B1" (snd (booking_cancel cancel_ok_env "U1" "B1" st)) =
       Some (canceled_row b) /\
     (pickupRevertError cancel_ok_env = false ->
        forall i, In i (items (snd (booking_cancel cancel_ok_env "U1" "B1" st))) ->
        item_user_id i = "U1" -> In (item_id i) (pickup_item_ids b) ->
        ~ In (item_id i) (delivery_item_ids b) -> item_st i = home) /\
     (deliveryRevertError cancel_ok_env = false ->
        forall i, In i (items (snd (booking_cancel cancel_ok_env "U1" "B1" st))) ->
        item_user_id i = "U1" -> In (item_id i) (delivery_item_ids b) ->
        item_st i = stored)).
Proof.
  intros st b.
  apply (C6_customer_cancel cancel_ok_env "U1" "B1" st b);
    [discriminate|reflexivity|reflexivity|discriminate].
Defined.

Lemma C10_revert_failure_ignored_witness :
  let st := {| actions := [mkAction "B1" "U1" pending_confirmation pickup ["I1"] []];
               items := [mkItem "I1" "U1" scheduled];
               profiles := []; audit := []; outbox := [] |} in
  let env := mkCancelEnv true false false in
  fst (booking_cancel cancel_ok_env "U1" "B1" st) = fst (booking_cancel env "U1" "B1" st) /\
  actions (snd (booking_cancel cancel_ok_env "U1" "B1" st)) =
    actions (snd (booking_cancel env "U1" "B1" st)) /\
  audit (snd (booking_cancel cancel_ok_env "U1" "B1" st)) =
    audit (snd (booking_cancel env "U1" "B1" st)) /\
  (cancelError env = false ->
     fst (booking_cancel env "U1" "B1" st) = mkResponse 200 (BOkStatus canceled) /\
     find_action "B1" (snd (booking_cancel env "U1" "B1" st)) =
       Some (canceled_row (mkAction "B1" "U1" pending_confirmation pickup ["I1"] []))).
Proof.
  intros st env.
  apply (C10_revert_failure_ignored env cancel_ok_env "U1" "B1" st
           (mkAction "B1" "U1" pending_confirmation pickup ["I1"] []));
    [discriminate|reflexivity|reflexivity|right; left; reflexivity|reflexivity].
Defined.

(** ** C4: payment event replay *)

(** Claim C4 (as amended).  For an event id not yet in the ledger: if the
    business logic throws, the call fails with 500, the id is not
    recorded, the writes the logic made before throwing stay, and a retry
    runs the logic again; if it succeeds, the state is changed once and,
    provided the ledger insert succeeds, the id is recorded so that a
    replay whose ledger check succeeds answers [duplicate] and changes
    nothing. *)
Theorem C4_payment_replay env1 env2 ev st :
  ~ In ev (ledger st) ->
  let '(r1, st1) := stripe_webhook env1 ev st in
  let '(r2, st2) := stripe_webhook env2 ev st1 in
  (processingFails env1 = true ->
     code r1 = 500%Z /\ ledger st1 = ledger st /\
     applied st1 = applied st ++ writesBeforeThrow env1 /\
     (processingFails env2 = false -> applied st2 = applied st1 ++ [ev])) /\
  (processingFails env1 = false ->
     r1 = mkResponse 200 BOk /\ applied st1 = applied st ++ [ev] /\
     (insertError env1 = false -> checkError env2 = false ->
        ledger st1 = ledger st ++ [ev] /\
        r2 = mkResponse 200 BOkDuplicate /\ st2 = st1)).
Proof.
  intros Hnin. apply mem_false_not_In in Hnin.
  unfold stripe_webhook at 1. rewrite Hnin.
  destruct (checkError env1), (processingFails env1), (insertError env1);
    cbv beta iota zeta;
    destruct (stripe_webhook env2 ev _) as [r2 st2] eqn:E2;
    (split; intros Hp; try discriminate);
    try (split; [reflexivity|split; [reflexivity|split; [reflexivity|]]];
         intros Hp2; unfold stripe_webhook in E2; cbn [ledger applied] in E2;
         rewrite Hnin, Hp2 in E2;
         destruct (checkError env2), (insertError env2); injection E2 as <- <-;
         reflexivity);
    (split; [reflexivity|split; [reflexivity|]]); try discriminate;
    intros _ Hc; unfold stripe_webhook in E2; rewrite Hc in E2; cbn [ledger applied] in E2;
    replace (mem ev (ledger st ++ [ev])) with true in E2
      by (symmetry; apply mem_In, in_or_app; right; left; reflexivity);
    injection E2 as <- <-; auto.
Qed.

Lemma C4_payment_replay_witness :
  let '(r1, st1) := stripe_webhook pay_ok_env "evt_1" (mkPayState [] []) in
  let '(r2, st2) := stripe_webhook pay_ok_env "evt_1" st1 in
  (processingFails pay_ok_env = true ->
     code r1 = 500%Z /\ ledger st1 = ledger (mkPayState [] []) /\
     applied st1 = applied (mkPayState [] []) ++ writesBeforeThrow pay_ok_env /\
     (processingFails pay_ok_env = false -> applied st2 = applied st1 ++ ["evt_1"])) /\
  (processingFails pay_ok_env = false ->
     r1 = mkResponse 200 BOk /\ applied st1 = applied (mkPayState [] []) ++ ["evt_1"] /\
     (insertError pay_ok_env = false -> checkError pay_ok_env = false ->
        ledger st1 = ledger (mkPayState [] []) ++ ["evt_1"] /\
        r2 = mkResponse 200 BOkDuplicate /\ st2 = st1)).
Proof.
  apply (C4_payment_replay pay_ok_env pay_ok_env "evt_1" (mkPayState [] [])).
  simpl. tauto.
Defined.

(** Claim C4's "exactly one state mutation" fails: (1) the insert after a
    successful run fails, which is only logged, and the replay runs the
    business logic again; (2) the check fails for an event already
    recorded, which is only logged, and it is run again as well; (3) a
    run of handleCheckoutCompleted that logged a signup anomaly and then
    threw keeps that write, and the retry runs the business logic again. *)
Lemma C4_counterexample :
  (let '(r1, st1) := stripe_webhook (mkPayEnv false false true []) "evt_1"
                       (mkPayState [] []) in
   let '(r2, st2) := stripe_webhook pay_ok_env "evt_1" st1 in
   r1 = mkResponse 200 BOk /\ r2 = mkResponse 200 BOk /\
   applied st2 = ["evt_1"; "evt_1"]) /\
  stripe_webhook (mkPayEnv true false false []) "evt_1" (mkPayState ["evt_1"] ["evt_1"]) =
    (mkResponse 200 BOk, mkPayState ["evt_1"; "evt_1"] ["evt_1"; "evt_1"]) /\
  (let '(r1, st1) := stripe_webhook (mkPayEnv false true false ["log_signup_anomaly"])
                       "evt_1" (mkPayState [] []) in
   let '(r2, st2) := stripe_webhook pay_ok_env "evt_1" st1 in
   code r1 = 500%Z /\ r2 = mkResponse 200 BOk /\
   applied st2 = ["log_signup_anomaly"; "evt_1"]).
Proof. vm_compute. auto. Qed.

(** ** C8: scheduling webhook verification fails closed *)

Lemma xor_or_zero (a b : string) (out : N) :
  String.length a = String.length b -> xor_or a b out = 0%N ->
  out = 0%N /\ a = b.
Proof.
  revert b out; induction a as [|x a IH]; intros [|y b] out Hl H;
    cbn in *; try discriminate; [auto|].
  destruct (IH b _ (eq_add_S _ _ Hl) H) as [Hor ->].
  apply N.lor_eq_0_iff in Hor as [Hout Hx].
  apply N.lxor_eq in Hx.
  rewrite <- (ascii_N_embedding x), <- (ascii_N_embedding y), Hx. auto.
Qed.

Lemma constantTimeEqual_eq (a b : string) : constantTimeEqual a b = true -> a = b.
Proof.
  unfold constantTimeEqual.
  destruct (Nat.eqb (String.length a) (String.length b)) eqn:Hl; cbn; [|discriminate].
  intros H. apply Nat.eqb_eq in Hl. apply N.eqb_eq in H.
  exact (proj2 (xor_or_zero a b 0 Hl H)).
Qed.

Lemma isFresh_true js now t :
  isFreshTimestampSeconds js now t = true ->
  exists ts, js t = Some ts /\ (inject_Z 0 < ts)%Q /\
    (Qabs (inject_Z now - ts) <= inject_Z MAX_CLOCK_SKEW_SECONDS)%Q.
Proof.
  unfold isFreshTimestampSeconds. destruct (js t) as [ts|]; [|discriminate].
  destruct (Qle_bool ts (inject_Z 0)) eqn:H0; [discriminate|].
  intros H. exists ts. split; [reflexivity|]. split.
  - apply Qnot_le_lt. intros Hle. apply Qle_bool_iff in Hle. congruence.
  - apply Qle_bool_iff. exact H.
Qed.

(** Claim C8 (calendly-webhook v2.0).  A request other than the CORS
    preflight reaches the event handling only when it carries a non-empty
    signature header, the signing key is configured, the header parses to
    [t] and [v1], [t] is a positive timestamp at most 300 seconds from now,
    and [v1] is the HMAC of [t.body] under the key; every other request is
    answered 401 or 500 with the store as it was, whatever the handler. *)
Theorem C8_calendly_fail_closed js hmac handle_event signingKey method header now
    rawBody st :
  method <> "OPTIONS" ->
  (calendly_serve js hmac handle_event signingKey method header now rawBody st =
     handle_event rawBody st /\
   exists hv k t v1,
     header = Some hv /\ hv <> "" /\ signingKey = Some k /\ k <> "" /\
     parseCalendlySignatureHeader hv = Some (t, v1) /\
     (exists ts, js t = Some ts /\ (inject_Z 0 < ts)%Q /\
        (Qabs (inject_Z now - ts) <= inject_Z MAX_CLOCK_SKEW_SECONDS)%Q) /\
     v1 = hmac k (t ++ "." ++ rawBody)%string) \/
  (exists s reason, (s = 401%Z \/ s = 500%Z) /\
     forall handle_event',
     calendly_serve js hmac handle_event' signingKey method header now rawBody st =
       (mkResponse s (BErrorReason "Unauthorized" reason), st)).
Proof.
  intros Hm. apply String.eqb_neq in Hm. unfold calendly_serve. rewrite Hm.
  unfold verifyCalendlySignature.
  destruct header as [hv|];
    [|right; exists 401%Z, "missing_signature_header"; auto].
  destruct (String.eqb_spec hv "") as [Hhv|Hhv];
    [right; exists 401%Z, "missing_signature_header"; auto|].
  destruct signingKey as [k|];
    [|right; exists 500%Z, "missing_signing_key_env"; auto].
  destruct (String.eqb_spec k "") as [Hk|Hk]; cbn [truthy negb];
    [subst k; right; exists 500%Z, "missing_signing_key_env"; auto|].
  destruct (String.eqb k "") eqn:Ek; [apply String.eqb_eq in Ek; contradiction|cbn [negb truthy]].
  destruct (parseCalendlySignatureHeader hv) as [[t v1]|] eqn:Hp;
    [|right; exists 401%Z, "invalid_signature_header_format"; auto].
  destruct (isFreshTimestampSeconds js now t) eqn:Hf; cbn [negb];
    [|right; exists 401%Z, "stale_signature_timestamp"; auto].
  destruct (constantTimeEqual (hmac k (t ++ "." ++ rawBody)%string) v1) eqn:Hc; cbn [negb];
    [|right; exists 401%Z, "signature_mismatch"; auto].
  left. split; [reflexivity|].
  exists hv, k, t, v1. repeat split; auto.
  - exact (isFresh_true js now t Hf).
  - symmetry. exact (constantTimeEqual_eq _ _ Hc).
Qed.

Lemma C8_calendly_fail_closed_witness :
  let js := fun t => if String.eqb t "1700000000" then Some (inject_Z 1700000000)
                     else None in
  let hmac := fun (k p : string) => "abc" in
  let handle_event := fun (_ : string) (st : store) => (mkResponse 200 BOk, st) in
  (calendly_serve js hmac handle_event (Some "secret") "POST"
     (Some "t=1700000000,v1=abc") 1700000100 "{}" sample_store =
     handle_event "{}" sample_store /\
   exists hv k t v1,
     Some "t=1700000000,v1=abc" = Some hv /\ hv <> "" /\ Some "secret" = Some k /\
     k <> "" /\ parseCalendlySignatureHeader hv = Some (t, v1) /\
     (exists ts, js t = Some ts /\ (inject_Z 0 < ts)%Q /\
        (Qabs (inject_Z 1700000100 - ts) <= inject_Z MAX_CLOCK_SKEW_SECONDS)%Q) /\
     v1 = hmac k (t ++ "." ++ "{}")%string) \/
  (exists s reason, (s = 401%Z \/ s = 500%Z) /\
     forall handle_event',
     calendly_serve js hmac handle_event' (Some "secret") "POST"
       (Some "t=1700000000,v1=abc") 1700000100 "{}" sample_store =
       (mkResponse s (BErrorReason "Unauthorized" reason), sample_store)).
Proof.
  intros js hmac handle_event.
  apply (C8_calendly_fail_closed js hmac handle_event (Some "secret") "POST"
           (Some "t=1700000000,v1=abc") 1700000100 "{}" sample_store).
  discriminate.
Defined.

(** The same request with a wrong signature, a stale timestamp or no
    header is refused before the handler runs. *)
Example calendly_reject_sample :
  let js := fun t => if String.eqb t "1700000000" then Some (inject_Z 1700000000)
                     else None in
  let hmac := fun (k p : string) => "abc" in
  let handle_event := fun (_ : string) (st : store) => (mkResponse 200 BOk, st) in
  fst (calendly_serve js hmac handle_event (Some "secret") "POST"
         (Some "t=1700000000,v1=abd") 1700000100 "{}" sample_store) =
    mkResponse 401 (BErrorReason "Unauthorized" "signature_mismatch") /\
  fst (calendly_serve js hmac handle_event (Some "secret") "POST"
         (Some "t=1700000000,v1=abc") 1700000400 "{}" sample_store) =
    mkResponse 401 (BErrorReason "Unauthorized" "stale_signature_timestamp") /\
  fst (calendly_serve js hmac handle_event None "POST"
         (Some "t=1700000000,v1=abc") 1700000100 "{}" sample_store) =
    mkResponse 500 (BErrorReason "Unauthorized" "missing_signing_key_env") /\
  fst (calendly_serve js hmac handle_event (Some "secret") "POST"
         None 1700000100 "{}" sample_store) =
    mkResponse 401 (BErrorReason "Unauthorized" "missing_signature_header").
Proof. vm_compute. auto. Qed.

(* ------------------------------------------------------------------ *)
(** ** Further properties *)

(** X1 (complete-service).  A complete-service request whose header does
    not resolve to a caller with a staff row is answered 401, 403 or 500
    and writes nothing, whatever its body. *)
Theorem complete_service_staff_only env getUser staffCheck authHeader body st :
  (forall caller, getUser (replace_first "Bearer " "" (get_or authHeader)) = Some caller ->
                  staffCheck caller <> inr true) ->
  exists r, complete_service_serve env getUser staffCheck authHeader body st = (CDone r, st) /\
            (code r = 401 \/ code r = 403 \/ code r = 500)%Z.
Proof.
  intros H. unfold complete_service_serve.
  destruct (negb (truthy authHeader)); [eauto|].
  destruct (getUser _) as [caller|] eqn:Eu; [|eauto].
  specialize (H caller eq_refl).
  destruct (staffCheck caller) as [msg|[|]]; [eauto 6|congruence|eauto].
Qed.

(** X2 (update-booking-items v1.1).  A selection request answered with any
    status other than 200 leaves the store unchanged. *)
Theorem select_error_writes_nothing env uid bid sel st :
  code (fst (update_booking_items env uid bid sel st)) <> 200%Z ->
  snd (update_booking_items env uid bid sel st) = st.
Proof.
  unfold update_booking_items.
  destruct (String.eqb bid ""); [reflexivity|].
  destruct (find_action bid st) as [a|]; [|reflexivity].
  destruct (negb (String.eqb (user_id a) uid)); [reflexivity|].
  destruct (negb (existsb _ _)); [reflexivity|].
  destruct (itemsError env); [reflexivity|].
  destruct (partition_items _ _ _) as [p d].
  destruct (negb _ && negb _); [reflexivity|].
  destruct (updateError env); [reflexivity|].
  cbn. intros H. exfalso. apply H. reflexivity.
Qed.

Lemma set_items_status_cond_In (ids : list string) (x : item_status) (s : store) (i : item) :
  In i (items s) ->
  In (if mem (item_id i) ids then mkItem (item_id i) (item_user_id i) x else i)
     (items (if (0 <? length ids)%nat && negb false
             then set_items_status (fun _ => true) ids x s else s)).
Proof.
  intros Hi. destruct ids as [|id ids]; cbn [length Nat.ltb Nat.leb negb andb].
  - exact Hi.
  - cbn [items set_items_status].
    apply (in_map (fun i => if mem (item_id i) (id :: ids) && true
                            then mkItem (item_id i) (item_user_id i) x else i)) in Hi.
    rewrite andb_true_r in Hi. exact Hi.
Qed.

Lemma fetch_items_nil st : fetch_items [] st = [].
Proof. unfold fetch_items. induction (items st); cbn; auto. Qed.

Lemma filter_not_mem_nil (l : list string) :
  filter (fun id => negb (mem id [])) l = l.
Proof. induction l as [|a l IH]; [reflexivity|]. simpl. f_equal. exact IH. Qed.

Lemma apply_item_changes_clear env P D s :
  removePickupError env = false -> removeDeliveryError env = false ->
  apply_item_changes env P D [] [] s =
  (let s3 := if (0 <? length P)%nat && negb false
             then set_items_status (fun _ => true) P home s else s in
   if (0 <? length D)%nat && negb false
   then set_items_status (fun _ => true) D stored s3 else s3).
Proof.
  intros H1 H2. unfold apply_item_changes. rewrite !filter_not_mem_nil, H1, H2.
  reflexivity.
Qed.

(** X3 (update-booking-items v1.1).  Selecting no items on an owned,
    editable booking succeeds, empties both item lists, sets the booking
    to pending_confirmation, and puts every previously chosen item back:
    delivery items to stored, pickup items to home, others unchanged. *)
Theorem select_empty_reverts env uid bid st b :
  bid <> "" -> find_action bid st = Some b -> user_id b = uid ->
  In (status b) [pending_items; pending_confirmation] ->
  itemsError env = false -> updateError env = false ->
  removePickupError env = false -> removeDeliveryError env = false ->
  let '(r, st') := update_booking_items env uid bid [] st in
  code r = 200%Z /\
  find_action bid st' =
    Some (mkAction (action_id b) uid pending_confirmation (service b) [] []) /\
  forall i, In i (items st) ->
    In (mkItem (item_id i) (item_user_id i)
          (if mem (item_id i) (delivery_item_ids b) then stored
           else if mem (item_id i) (pickup_item_ids b) then home
           else item_st i)) (items st').
Proof.
  intros Hbid Hf Hu Hs Hie Hue Hrp Hrd.
  rewrite (select_path env uid bid [] st b [] []) by
    (auto; rewrite fetch_items_nil; reflexivity).
  split; [reflexivity|]. split.
  - rewrite find_action_log. unfold find_action. rewrite apply_item_changes_actions.
    fold (find_action bid (update_actions (fun x => String.eqb (action_id x) bid)
      (fun x => mkAction (action_id x) (user_id x) pending_confirmation (service x) [] []) st)).
    rewrite (find_action_update _ _ bid st b Hf).
    + rewrite Hu. reflexivity.
    + rewrite (find_action_id _ _ _ Hf). apply String.eqb_refl.
    + reflexivity.
  - intros i Hi. cbn [log_booking_event items].
    rewrite apply_item_changes_clear by assumption. cbv zeta.
    assert (H1 := set_items_status_cond_In (pickup_item_ids b) home
                   (update_actions (fun x => String.eqb (action_id x) bid)
                      (fun x => mkAction (action_id x) (user_id x) pending_confirmation
                                         (service x) [] []) st) i Hi).
    apply (set_items_status_cond_In (delivery_item_ids b) stored) in H1.
    destruct i as [id u s0]. cbn [item_id item_user_id item_st] in *.
    destruct (mem id (pickup_item_ids b)); cbn [item_id item_user_id item_st] in H1;
      destruct (mem id (delivery_item_ids b)); exact H1.
Qed.

Lemma set_items_status_hit_p (p : item -> bool) (ids : list string) (s : item_status)
    (st : store) (r : item) :
  In r (items st) -> mem (item_id r) ids = true -> p r = true ->
  In (mkItem (item_id r) (item_user_id r) s) (items (set_items_status p ids s st)).
Proof.
  intros Hr Hm Hp. cbn [items set_items_status].
  apply (in_map (fun i => if mem (item_id i) ids && p i
                          then mkItem (item_id i) (item_user_id i) s else i)) in Hr.
  rewrite Hm, Hp in Hr. exact Hr.
Qed.

Lemma set_items_status_miss_p (p : item -> bool) (ids : list string) (s : item_status)
    (st : store) (r : item) :
  In r (items st) -> mem (item_id r) ids = false ->
  In r (items (set_items_status p ids s st)).
Proof.
  intros Hr Hm. cbn [items set_items_status].
  apply (in_map (fun i => if mem (item_id i) ids && p i
                          then mkItem (item_id i) (item_user_id i) s else i)) in Hr.
  rewrite Hm in Hr. exact Hr.
Qed.

Lemma cond_set_items_miss (c : bool) p ids s st r :
  In r (items st) -> mem (item_id r) ids = false ->
  In r (items (if c then set_items_status p ids s st else st)).
Proof. intros Hr Hm. destruct c; [apply set_items_status_miss_p|]; assumption. Qed.

Lemma length_pos_In {A} (x : A) (l : list A) : In x l -> (0 <? length l)%nat = true.
Proof. destruct l; [intros []|reflexivity]. Qed.

(** X4 (update-booking-items v1.1).  An item at home that belongs to any
    user, not only the booking owner, is added to the pickup list and
    marked scheduled when selected: the v1.1 code does not check the owner
    of the selected items. *)
Theorem select_unowned_item env uid bid sel st b x u :
  bid <> "" -> find_action bid st = Some b -> user_id b = uid ->
  In (status b) [pending_items; pending_confirmation] ->
  itemsError env = false -> updateError env = false -> addError env = false ->
  NoDup (map item_id (items st)) ->
  In (mkItem x u home) (items st) -> In x sel ->
  ~ In x (pickup_item_ids b) -> ~ In x (delivery_item_ids b) ->
  let '(r, st') := update_booking_items env uid bid sel st in
  code r = 200%Z /\
  (exists a, find_action bid st' = Some a /\ In x (pickup_item_ids a)) /\
  item_status_of x st' = Some scheduled.
Proof.
  intros Hbid Hf Hu Hs Hie Hue Hae Hnd Hx Hsel HnP HnD.
  set (P := pickup_item_ids b). set (D := delivery_item_ids b).
  set (its := fetch_items sel st).
  set (p := map item_id (filter (to_pickup P D) its)).
  set (d := map item_id (filter (to_delivery P D) its)).
  assert (Hxp : In x p).
  { unfold p. change x with (item_id (mkItem x u home)). apply in_map.
    apply filter_In. split; [|reflexivity]. unfold its, fetch_items.
    apply filter_In. split; [exact Hx|]. apply mem_In. exact Hsel. }
  rewrite (select_path env uid bid sel st b p d) by
    (auto; unfold p, d, its, P, D; apply partition_items_filter).
  fold P D. split; [reflexivity|]. split.
  - eexists. split.
    + rewrite find_action_log. unfold find_action. rewrite apply_item_changes_actions.
      fold (find_action bid (update_actions (fun x => String.eqb (action_id x) bid)
        (fun x => mkAction (action_id x) (user_id x) pending_confirmation (service x) p d) st)).
      apply (find_action_update _ _ bid st b Hf).
      * rewrite (find_action_id _ _ _ Hf). apply String.eqb_refl.
      * reflexivity.
    + exact Hxp.
  - set (st1 := update_actions _ _ st).
    assert (Hx1 : In (mkItem x u home) (items st1)) by exact Hx.
    unfold apply_item_changes. cbv zeta.
    set (added := filter (fun id => negb (mem id P)) p ++ filter (fun id => negb (mem id D)) d).
    assert (Ha : mem x added = true).
    { apply mem_In. unfold added. apply in_or_app. left. apply filter_In.
      split; [exact Hxp|]. apply mem_false_not_In in HnP.
      change (mem x P = false) in HnP. rewrite HnP. reflexivity. }
    rewrite (length_pos_In x added) by (apply mem_In; exact Ha). rewrite Hae.
    cbn [andb negb].
    pose proof (set_items_status_hit added scheduled st1 (mkItem x u home) Hx1 Ha) as H2.
    cbn [item_id item_user_id] in H2.
    set (st2 := set_items_status (fun _ => true) added scheduled st1) in *.
    assert (HmP : mem x (filter (fun id => negb (mem id p)) P) = false).
    { apply mem_false_not_In. intros Hin. apply filter_In in Hin. tauto. }
    assert (HmD : mem x (filter (fun id => negb (mem id d)) D) = false).
    { apply mem_false_not_In. intros Hin. apply filter_In in Hin. tauto. }
    pose proof (cond_set_items_miss ((0 <? length (filter (fun id => negb (mem id p)) P))%nat
                  && negb (removePickupError env)) (fun _ => true) _ home st2
                  (mkItem x u scheduled) H2 HmP) as H3.
    pose proof (cond_set_items_miss ((0 <? length (filter (fun id => negb (mem id d)) D))%nat
                  && negb (removeDeliveryError env)) (fun _ => true) _ stored _
                  (mkItem x u scheduled) H3 HmD) as H4.
    change x with (item_id (mkItem x u scheduled)).
    unfold item_status_of. cbn [log_booking_event items].
    fold (item_status_of (item_id (mkItem x u scheduled))
      (if (0 <? length (filter (fun id => negb (mem id d)) D))%nat && negb (removeDeliveryError env)
       then set_items_status (fun _ => true) (filter (fun id => negb (mem id d)) D) stored
              (if (0 <? length (filter (fun id => negb (mem id p)) P))%nat &&
                  negb (removePickupError env)
               then set_items_status (fun _ => true) (filter (fun id => negb (mem id p)) P) home st2
               else st2)
       else if (0 <? length (filter (fun id => negb (mem id p)) P))%nat &&
                  negb (removePickupError env)
            then set_items_status (fun _ => true) (filter (fun id => negb (mem id p)) P) home st2
            else st2)).
    apply item_status_of_In; [|exact H4].
    repeat match goal with
           | |- context [if ?c then _ else _] => destruct c
           end; rewrite ?set_items_status_ids; unfold st2; rewrite ?set_items_status_ids;
      exact Hnd.
Qed.

(** X5 (booking-cancel).  When the final cancel update fails after the
    item reverts succeeded, the caller gets 500 "Failed to cancel
    booking", the booking is unchanged, and its pickup items stay reverted
    to home. *)
Theorem cancel_failure_after_reverts env uid bid st b i :
  bid <> "" -> find_action bid st = Some b -> user_id b = uid ->
  In (status b) CUSTOMER_CANCELABLE_STATES ->
  pickupRevertError env = false -> cancelError env = true ->
  In i (items st) -> item_user_id i = uid ->
  In (item_id i) (pickup_item_ids b) -> ~ In (item_id i) (delivery_item_ids b) ->
  let '(r, st') := booking_cancel env uid bid st in
  r = mkResponse 500 (BError "Failed to cancel booking") /\
  find_action bid st' = Some b /\
  In (mkItem (item_id i) uid home) (items st').
Proof.
  intros Hbid Hf Hu Hs Hpe Hce Hi Hiu HiP HiD.
  rewrite (booking_cancel_path env uid bid st b) by assumption. cbv zeta.
  rewrite Hce, Hpe, (length_pos_In _ _ HiP). cbn [andb negb].
  split; [reflexivity|]. split.
  - destruct (_ && _); rewrite ?find_action_items_writes; exact Hf.
  - apply cond_set_items_miss.
    + rewrite <- Hiu. apply set_items_status_hit_p; [exact Hi|apply mem_In; exact HiP|].
      rewrite Hiu. apply String.eqb_refl.
    + apply mem_false_not_In. exact HiD.
Qed.

Lemma xor_or_self (a : string) (out : N) : xor_or a a out = out.
Proof.
  revert out; induction a as [|x a IH]; intros out; cbn; [reflexivity|].
  rewrite N.lxor_nilpotent, N.lor_0_r. apply IH.
Qed.

(** X6 (calendly-webhook).  constantTimeEqual a b is true exactly when a
    and b are the same string. *)
Theorem constantTimeEqual_iff (a b : string) : constantTimeEqual a b = true <-> a = b.
Proof.
  split; [apply constantTimeEqual_eq|].
  intros <-. unfold constantTimeEqual. rewrite Nat.eqb_refl, xor_or_self. reflexivity.
Qed.

(** X7 (complete-service).  When the item status update fails for a
    completable booking with items, complete-service answers 500 and the
    store is unchanged: the booking is not completed. *)
Theorem complete_service_fail_closed env aid st a :
  find_action aid st = Some a -> completable (status a) = true ->
  match service a with
  | pickup => pickup_item_ids a
  | delivery => delivery_item_ids a
  end <> [] ->
  itemUpdateError env = true ->
  exists r, complete_service env aid st = (CDone r, st) /\ code r = 500%Z.
Proof.
  intros Hf Hc Hne He. unfold complete_service, complete_load.
  rewrite Hf, Hc. cbn [negb].
  destruct (service a);
    [destruct (pickup_item_ids a) | destruct (delivery_item_ids a)];
    try congruence; cbn [length Nat.ltb Nat.leb]; rewrite He; cbn; eauto.
Qed.


Lemma substring_all (s : string) : substring 0 (String.length s) s = s.
Proof. induction s as [|c s IH]; cbn; [reflexivity|]. rewrite IH. reflexivity. Qed.

Lemma replace_first_prefix (X : string) :
  replace_first "Bearer " "" ("Bearer " ++ X) = X.
Proof.
  destruct X as [|c X]; cbn; [reflexivity|].
  rewrite ?Nat.sub_0_r.
  rewrite substring_all. reflexivity.
Qed.

Lemma split_on_app (c : Ascii.ascii) (A B : string) :
  forallb (fun x => negb (Ascii.eqb x c)) (list_ascii_of_string A) = true ->
  split_on c (A ++ String c B) = A :: split_on c B.
Proof.
  induction A as [|x A IH]; cbn; intros H.
  - rewrite Ascii.eqb_refl. reflexivity.
  - apply andb_prop in H as [Hx HA]. rewrite (IH HA).
    destruct (Ascii.eqb x c); [discriminate|reflexivity].
Qed.

(** X9 (update-booking-items v1.0).  The v1.0 handler takes the caller
    from the middle segment of the bearer token alone: the signature
    segment is never looked at, so any signature gives the same response. *)
Theorem v10_token_signature_ignored decode env H P S aid sel st :
  forallb (fun x => negb (Ascii.eqb x "."%char)) (list_ascii_of_string H) = true ->
  forallb (fun x => negb (Ascii.eqb x "."%char)) (list_ascii_of_string P) = true ->
  update_booking_items_v10_serve decode env
    (Some ("Bearer " ++ H ++ "." ++ P ++ "." ++ S)%string) aid sel st =
  match decode (Some P) with
  | inl msg => (mkResponse 500 (BError (if String.eqb msg "" then "Internal server error"
                                        else msg)), st)
  | inr None => (mkResponse 401 (BError "Invalid token"), st)
  | inr (Some userId) => update_booking_items_v10 env userId aid sel st
  end.
Proof.
  intros HH HP. unfold update_booking_items_v10_serve. cbn [truthy negb].
  change (String.eqb ("Bearer " ++ H ++ "." ++ P ++ "." ++ S) "") with false.
  cbn [negb]. rewrite replace_first_prefix.
  change (H ++ "." ++ P ++ "." ++ S)%string with (H ++ String "." (P ++ String "." S))%string.
  rewrite (split_on_app _ _ _ HH), (split_on_app _ _ _ HP). reflexivity.
Qed.

Lemma profile_by_customer_none env c bs :
  length (filter (has_customer c) (bprofiles bs)) <> 1%nat ->
  profile_by_customer env c bs = None.
Proof.
  intros Hl. unfold profile_by_customer. destruct (profileLookupError env); [reflexivity|].
  destruct (filter (has_customer c) (bprofiles bs)) as [|p [|q r]]; cbn in Hl;
    [reflexivity|lia|reflexivity].
Qed.

(** X10 (stripe-webhook).  When no single customer profile carries the
    event's customer id, the four subscription and invoice handlers return
    without writing anything. *)
Theorem stripe_handlers_no_profile env now c s i bs :
  length (filter (has_customer c) (bprofiles bs)) <> 1%nat ->
  sub_customer s = c -> inv_customer i = c ->
  handleSubscriptionChange env s bs = (Returned, bs) /\
  handleSubscriptionDeleted env s bs = (Returned, bs) /\
  handleInvoicePaymentSucceeded env now i bs = (Returned, bs) /\
  handleInvoicePaymentFailed env now i bs = (Returned, bs).
Proof.
  intros Hl Hs Hi.
  unfold handleSubscriptionChange, handleSubscriptionDeleted,
    handleInvoicePaymentSucceeded, handleInvoicePaymentFailed.
  rewrite Hs, Hi, (profile_by_customer_none env c bs Hl). auto.
Qed.

(** X11 (stripe-webhook).  A payment-failed event for a customer without a
    single profile is acknowledged 200 and recorded in the ledger, so a
    later delivery of the same event is answered as a duplicate. *)
Theorem stripe_unmatched_event_recorded env now i bs ev pst :
  length (filter (has_customer (inv_customer i)) (bprofiles bs)) <> 1%nat ->
  ~ In ev (ledger pst) ->
  let o := fst (handleInvoicePaymentFailed env now i bs) in
  let '(r, pst') := stripe_webhook (mkPayEnv false (threw o) false []) ev pst in
  r = mkResponse 200 BOk /\ In ev (ledger pst') /\
  forall env', checkError env' = false ->
    stripe_webhook env' ev pst' = (mkResponse 200 BOkDuplicate, pst').
Proof.
  intros Hl Hn. cbv zeta.
  unfold handleInvoicePaymentFailed.
  rewrite (profile_by_customer_none env _ bs Hl). cbn [fst threw].
  unfold stripe_webhook. cbn [checkError processingFails insertError].
  apply mem_false_not_In in Hn. rewrite Hn. cbn.
  split; [reflexivity|]. split; [apply in_or_app; right; left; reflexivity|].
  intros env' Hc. rewrite Hc.
  assert (Hm : mem ev (ledger pst ++ [ev]) = true).
  { apply mem_In. apply in_or_app. right. left. reflexivity. }
  unfold mem in Hm. rewrite Hm. reflexivity.
Qed.

(** X12 (stripe-webhook).  For a payment-failed invoice of a known
    customer, a failing status update throws with nothing written;
    otherwise past_due is recorded with the payment time and a
    payment_failed email goes out exactly when the profile has an email. *)
Theorem invoice_failed_email_after_update env now i bs p :
  profileLookupError env = false ->
  filter (has_customer (inv_customer i)) (bprofiles bs) = [p] ->
  (rpcError env = true -> handleInvoicePaymentFailed env now i bs = (Threw, bs)) /\
  (rpcError env = false ->
   exists bs', handleInvoicePaymentFailed env now i bs = (Returned, bs') /\
     sub_updates bs' = sub_updates bs ++
       [mkSubUpdate (bp_user_id p) "past_due" None None None None None None (Some now)] /\
     bmails bs' = bmails bs ++
       (if truthy (bp_email p)
        then [(payment_failed, get_or (bp_email p),
               if truthy (bp_first_name p) then bp_first_name p else None)]
        else [])).
Proof.
  intros Hle Hf. unfold handleInvoicePaymentFailed, profile_by_customer.
  rewrite Hle, Hf. unfold update_subscription_status.
  split; intros Hr; rewrite Hr; [reflexivity|].
  destruct (truthy (bp_email p)); eexists; (split; [reflexivity|]); cbn;
    rewrite ?app_nil_r; auto.
Qed.


Lemma upsert_action_profiles d u uri s e addr pl st :
  cprofiles (snd (upsert_action d u uri s e addr pl st)) = cprofiles st.
Proof. unfold upsert_action. destruct (find _ _); reflexivity. Qed.

Lemma map_ca_id_keep (f : cal_action -> cal_action) (l : list cal_action) :
  (forall x, ca_id (f x) = ca_id x) -> map ca_id (map f l) = map ca_id l.
Proof. intros Hf. rewrite map_map. apply map_ext. exact Hf. Qed.




Lemma profile_by_email_same e st st' :
  cprofiles st = cprofiles st' -> profile_by_email e st = profile_by_email e st'.
Proof. intros H. unfold profile_by_email. rewrite H. reflexivity. Qed.

Lemma fields_ok (a b c d : bool) :
  a && b && c && d = true -> negb a || negb b || negb c || negb d = false.
Proof. destruct a, b, c, d; cbn; congruence. Qed.

(** The paths of invitee.created that write no booking. *)
Lemma created_no_booking_core d env pl st :
  let e := trim (lower (get_or (pl_email pl))) in
  (truthy (Some e) && truthy (pl_uri pl) && truthy (pl_start pl) && truthy (pl_end pl) = false \/
   (profile_by_email e st = None /\ truthy (get_user_id_by_email env e) = false)) ->
  let '(o, st') := handleInviteeCreated d env pl st in
  o = Returned /\ cactions st' = cactions st /\ cprofiles st' = cprofiles st /\
  next_id st' = next_id st.
Proof.
  cbv zeta. intros H. unfold handleInviteeCreated.
  destruct (negb (truthy (Some (trim (lower (get_or (pl_email pl)))))) ||
            negb (truthy (pl_uri pl)) || negb (truthy (pl_start pl)) ||
            negb (truthy (pl_end pl))) eqn:Hc; [auto|].
  destruct H as [H|[Hp Ha]].
  - exfalso. revert H Hc.
    destruct (truthy (Some _)), (truthy (pl_uri pl)), (truthy (pl_start pl)),
      (truthy (pl_end pl)); cbn; congruence.
  - rewrite Hp. destruct (get_user_id_by_email env _) as [u|]; [|auto].
    cbn in Ha. destruct (String.eqb u ""); [auto|discriminate].
Qed.



(** X14 (calendly-webhook).  An invitee.created event with a missing
    field, or whose email matches no profile and no auth user, returns
    without touching bookings, profiles or the id counter. *)
Theorem invitee_created_no_booking d env pl st :
  let e := trim (lower (get_or (pl_email pl))) in
  (truthy (Some e) && truthy (pl_uri pl) && truthy (pl_start pl) && truthy (pl_end pl) = false \/
   (profile_by_email e st = None /\ truthy (get_user_id_by_email env e) = false)) ->
  let '(o, st') := handleInviteeCreated d env pl st in
  o = Returned /\ cactions st' = cactions st /\ cprofiles st' = cprofiles st /\
  next_id st' = next_id st.
Proof. apply created_no_booking_core. Qed.

Lemma find_filter_single {A} (f : A -> bool) (l : list A) (x : A) :
  filter f l = [x] -> find f l = Some x.
Proof.
  induction l as [|y l IH]; cbn; [discriminate|].
  destruct (f y); [intros H; injection H as -> _; reflexivity|exact IH].
Qed.

Lemma filter_map_keep (f : cal_action -> cal_action) (g : cal_action -> bool) l :
  (forall x, g (f x) = g x) -> filter g (map f l) = map f (filter g l).
Proof.
  intros Hg. induction l as [|x l IH]; cbn; [reflexivity|].
  rewrite Hg. destruct (g x); cbn; rewrite IH; reflexivity.
Qed.

(** X15 (calendly-webhook).  An invitee.created event whose event URI is
    already booked rewrites that row in place: it keeps its id and item
    lists, takes the profile's user and address, and goes back to
    pending_items whatever its status was. *)
Theorem invitee_created_revives d env pl st a p :
  let e := trim (lower (get_or (pl_email pl))) in
  let uri := get_or (pl_uri pl) in
  truthy (Some e) && truthy (pl_uri pl) && truthy (pl_start pl) && truthy (pl_end pl) = true ->
  profile_by_email e st = Some p -> actionUpsertError env = false ->
  filter (has_uri uri) (cactions st) = [a] ->
  let '(o, st') := handleInviteeCreated d env pl st in
  o = Returned /\
  filter (has_uri uri) (cactions st') =
    [mkCalAction (ca_id a) (cp_user_id p) pickup (Some uri) (get_or (pl_start pl))
       (get_or (pl_end pl)) pending_items (cp_address p) pl (ca_pickup a) (ca_delivery a)] /\
  map ca_id (cactions st') = map ca_id (cactions st) /\ next_id st' = next_id st.
Proof.
  cbv zeta. intros Hf Hp Hae Ha. unfold handleInviteeCreated.
  rewrite (fields_ok _ _ _ _ Hf), Hp, Hae.
  unfold upsert_action. cbn [cal_log cactions].
  rewrite (find_filter_single _ _ _ Ha). cbn. split; [reflexivity|]. split.
  - rewrite filter_map_keep, Ha.
    + assert (H : In a (filter (has_uri (get_or (pl_uri pl))) (cactions st)))
        by (rewrite Ha; left; reflexivity).
      apply filter_In in H as [_ H]. cbn. rewrite H. reflexivity.
    + intros x. destruct (has_uri _ x) eqn:Hx; [|exact Hx].
      cbn. apply String.eqb_refl.
  - split; [|reflexivity]. apply map_ca_id_keep. intros x. destruct (has_uri _ x); reflexivity.
Qed.

(** X16 (calendly-webhook).  An invitee.canceled event for a booked URI
    cancels that booking whatever its status, including completed, and
    leaves every other booking as it was. *)
Theorem invitee_canceled_any_status env pl st a :
  truthy (pl_uri pl) = true ->
  filter (has_uri (get_or (pl_uri pl))) (cactions st) = [a] ->
  cancelUpdateError env = false ->
  let '(o, st') := handleInviteeCanceled env pl st in
  o = Returned /\
  In (mkCalAction (ca_id a) (ca_user_id a) (ca_service a) (ca_uri a) (ca_start a) (ca_end a)
        canceled (ca_address a) (ca_payload a) (ca_pickup a) (ca_delivery a)) (cactions st') /\
  forall x, In x (cactions st) -> ca_id x <> ca_id a -> In x (cactions st').
Proof.
  intros Hu Ha He. unfold handleInviteeCanceled. rewrite Hu. cbn [negb].
  rewrite Ha, He. cbn [cal_log cactions]. split; [reflexivity|]. split.
  - assert (Hin : In a (cactions st)).
    { assert (H : In a (filter (has_uri (get_or (pl_uri pl))) (cactions st)))
        by (rewrite Ha; left; reflexivity).
      apply filter_In in H. tauto. }
    apply (in_map (fun x => if Nat.eqb (ca_id x) (ca_id a)
                            then mkCalAction (ca_id x) (ca_user_id x) (ca_service x)
                                   (ca_uri x) (ca_start x) (ca_end x) canceled
                                   (ca_address x) (ca_payload x) (ca_pickup x)
                                   (ca_delivery x)
                            else x)) in Hin.
    rewrite Nat.eqb_refl in Hin. exact Hin.
  - intros x Hx Hne.
    apply (in_map (fun x => if Nat.eqb (ca_id x) (ca_id a)
                            then mkCalAction (ca_id x) (ca_user_id x) (ca_service x)
                                   (ca_uri x) (ca_start x) (ca_end x) canceled
                                   (ca_address x) (ca_payload x) (ca_pickup x)
                                   (ca_delivery x)
                            else x)) in Hx.
    apply Nat.eqb_neq in Hne. rewrite Hne in Hx. exact Hx.
Qed.

Lemma MatchText_literal (l : list Ascii.ascii) :
  like_literal l = true -> MatchText l l = LikeTrue.
Proof.
  induction l as [|c l IH]; intros H; [reflexivity|].
  cbn in H. apply andb_prop in H as [Hc Hl]. apply andb_prop in Hc as [Hc Hb].
  apply andb_prop in Hc as [Hp Hu]. apply negb_true_iff in Hp, Hu, Hb.
  cbn. rewrite Hb, Hp, Hu, Ascii.eqb_refl. exact (IH Hl).
Qed.

Lemma MatchText_underscore (pre post : list Ascii.ascii) (c : Ascii.ascii) :
  like_literal pre = true -> like_literal post = true ->
  MatchText (pre ++ "_"%char :: post) (pre ++ c :: post) = LikeTrue.
Proof.
  induction pre as [|x pre IH]; intros Hpre Hpost.
  - cbn. exact (MatchText_literal post Hpost).
  - cbn in Hpre. apply andb_prop in Hpre as [Hx Hl]. apply andb_prop in Hx as [Hx Hb].
    apply andb_prop in Hx as [Hp Hu]. apply negb_true_iff in Hp, Hu, Hb.
    cbn [app MatchText]. rewrite Hb, Hp, Hu, Ascii.eqb_refl. exact (IH Hl Hpost).
Qed.

Lemma upsert_action_user d u uri s e addr pl st :
  exists x, In x (cactions (snd (upsert_action d u uri s e addr pl st))) /\
            has_uri uri x = true /\ ca_user_id x = u.
Proof.
  unfold upsert_action. destruct (find (has_uri uri) (cactions st)) as [a|] eqn:Hf; cbn.
  - apply find_some in Hf as [Ha Hu].
    eexists. split; [apply in_map; exact Ha|]. rewrite Hu. cbn.
    rewrite String.eqb_refl. auto.
  - eexists. split; [apply in_or_app; right; left; reflexivity|].
    cbn. rewrite String.eqb_refl. auto.
Qed.

(** X17 (calendly-webhook).  The profile lookup by email is an ILIKE
    pattern match: an invitee email with '_' matches a profile whose email
    has any character there, and the booking is made for that profile's
    user. *)
Theorem invitee_created_underscore_match d env pl st pre post c q u addr sub :
  let e := trim (lower (get_or (pl_email pl))) in
  list_ascii_of_string e = pre ++ "_"%char :: post -> lower e = e ->
  like_literal pre = true -> like_literal post = true ->
  list_ascii_of_string (lower q) = pre ++ c :: post ->
  cprofiles st = [mkCalProfile u q addr sub] ->
  truthy (pl_uri pl) && truthy (pl_start pl) && truthy (pl_end pl) = true ->
  actionUpsertError env = false ->
  let '(o, st') := handleInviteeCreated d env pl st in
  o = Returned /\
  exists x, In x (cactions st') /\ has_uri (get_or (pl_uri pl)) x = true /\ ca_user_id x = u.
Proof.
  cbv zeta. intros He Hl Hpre Hpost Hq Hps Hf Hae.
  assert (Hm : ilike q (trim (lower (get_or (pl_email pl))))
               = LikeTrue).
  { unfold ilike. rewrite Hl, He, Hq. apply MatchText_underscore; assumption. }
  assert (Hp : profile_by_email (trim (lower (get_or (pl_email pl)))) st =
               Some (mkCalProfile u q addr sub)).
  { unfold profile_by_email. rewrite Hps. cbn [existsb filter cp_email]. rewrite Hm.
    reflexivity. }
  assert (Hne : truthy (Some (trim (lower (get_or (pl_email pl))))) = true).
  { cbn. destruct (trim (lower (get_or (pl_email pl)))); [|reflexivity].
    destruct pre; discriminate. }
  unfold handleInviteeCreated.
  assert (Hall : truthy (Some (trim (lower (get_or (pl_email pl))))) && truthy (pl_uri pl) &&
                 truthy (pl_start pl) && truthy (pl_end pl) = true).
  { rewrite Hne. cbn [andb]. exact Hf. }
  rewrite (fields_ok _ _ _ _ Hall).
  rewrite Hp, Hae.
  destruct (upsert_action_user d u (get_or (pl_uri pl)) (get_or (pl_start pl))
              (get_or (pl_end pl)) addr pl
              (cal_log None "calendly_profile_found" st)) as [x Hx].
  destruct (upsert_action _ _ _ _ _ _ _ _) as [id st2]. cbn [snd] in Hx.
  split; [reflexivity|]. exists x. exact Hx.
Qed.

Lemma upsert_profile_In u e st p :
  In p (cprofiles st) -> cp_user_id p = u ->
  In (mkCalProfile u e (cp_address p) "inactive") (cprofiles (upsert_profile u e st)).
Proof.
  intros Hp Hu. unfold upsert_profile.
  replace (existsb (fun p => String.eqb (cp_user_id p) u) (cprofiles st)) with true.
  - cbn. apply (in_map (fun p => if String.eqb (cp_user_id p) u
                                 then mkCalProfile u e (cp_address p) "inactive" else p)) in Hp.
    rewrite Hu, String.eqb_refl in Hp. exact Hp.
  - symmetry. apply existsb_exists. exists p. rewrite Hu, String.eqb_refl. auto.
Qed.

(** X18 (calendly-webhook).  When the email lookup finds no single profile
    but the auth user exists, the profile upsert on that user sets the
    email to the invitee's and the subscription status to inactive, also
    for a profile that had another status. *)
Theorem invitee_created_resets_subscription d env pl st u p :
  let e := trim (lower (get_or (pl_email pl))) in
  truthy (Some e) && truthy (pl_uri pl) && truthy (pl_start pl) && truthy (pl_end pl) = true ->
  profile_by_email e st = None -> get_user_id_by_email env e = Some u -> u <> "" ->
  profileUpsertError env = false -> In p (cprofiles st) -> cp_user_id p = u ->
  In (mkCalProfile u e (cp_address p) "inactive")
     (cprofiles (snd (handleInviteeCreated d env pl st))).
Proof.
  cbv zeta. intros Hf Hp Hg Hu Hpe Hin Hpu. unfold handleInviteeCreated.
  rewrite (fields_ok _ _ _ _ Hf), Hp, Hg.
  apply String.eqb_neq in Hu. rewrite Hu, Hpe.
  pose proof (upsert_profile_In u (trim (lower (get_or (pl_email pl)))) st p Hin Hpu) as H.
  destruct (actionUpsertError env); [exact H|].
  match goal with
  | |- context [upsert_action ?a1 ?a2 ?a3 ?a4 ?a5 ?a6 ?a7 ?a8] =>
    pose proof (upsert_action_profiles a1 a2 a3 a4 a5 a6 a7 a8) as Hq;
    destruct (upsert_action a1 a2 a3 a4 a5 a6 a7 a8) as [id st2]
  end.
  cbn [snd] in Hq |- *. cbn [cal_log cprofiles]. rewrite Hq. exact H.
Qed.

Lemma split_on_none (c : Ascii.ascii) (A : string) :
  forallb (fun x => negb (Ascii.eqb x c)) (list_ascii_of_string A) = true ->
  split_on c A = [A].
Proof.
  induction A as [|x A IH]; cbn; intros H; [reflexivity|].
  apply andb_prop in H as [Hx HA]. rewrite (IH HA).
  destruct (Ascii.eqb x c); [discriminate|reflexivity].
Qed.

Lemma trim_left_no_ws (s : string) : no_ws s = true -> trim_left s = s.
Proof.
  destruct s as [|x s]; [reflexivity|]. unfold no_ws. cbn [list_ascii_of_string forallb trim_left]. intros H.
  apply andb_prop in H as [Hx _]. destruct (is_ws x); [discriminate|reflexivity].
Qed.

Lemma list_ascii_app (a b : string) :
  list_ascii_of_string (a ++ b) = list_ascii_of_string a ++ list_ascii_of_string b.
Proof. induction a as [|x a IH]; cbn; [reflexivity|]. rewrite IH. reflexivity. Qed.

Lemma list_ascii_rev (s : string) :
  list_ascii_of_string (rev_string s) = rev (list_ascii_of_string s).
Proof.
  induction s as [|x s IH]; cbn; [reflexivity|]. rewrite list_ascii_app, IH. reflexivity.
Qed.

Lemma string_app_nil_r (a : string) : (a ++ "")%string = a.
Proof. induction a as [|x a IH]; cbn; [reflexivity|]. rewrite IH. reflexivity. Qed.

Lemma string_app_assoc (a b c : string) : (a ++ (b ++ c))%string = ((a ++ b) ++ c)%string.
Proof. induction a as [|x a IH]; cbn; [reflexivity|]. rewrite IH. reflexivity. Qed.

Lemma rev_string_app (a b : string) : rev_string (a ++ b) = (rev_string b ++ rev_string a)%string.
Proof.
  induction a as [|x a IH]; cbn.
  - rewrite string_app_nil_r. reflexivity.
  - rewrite IH, string_app_assoc. reflexivity.
Qed.

Lemma rev_string_involutive (s : string) : rev_string (rev_string s) = s.
Proof.
  induction s as [|x s IH]; cbn; [reflexivity|].
  rewrite rev_string_app, IH. reflexivity.
Qed.

Lemma trim_no_ws (s : string) : no_ws s = true -> trim s = s.
Proof.
  intros H. unfold trim. rewrite (trim_left_no_ws s H).
  rewrite trim_left_no_ws; [apply rev_string_involutive|].
  unfold no_ws in *. rewrite list_ascii_rev. apply forallb_forall.
  intros x Hx. apply (proj1 (forallb_forall _ _) H). apply in_rev. exact Hx.
Qed.

Lemma sig_field_parts (s : string) :
  sig_field_ok s = true ->
  s <> "" /\
  forallb (fun x => negb (Ascii.eqb x ","%char)) (list_ascii_of_string s) = true /\
  forallb (fun x => negb (Ascii.eqb x "="%char)) (list_ascii_of_string s) = true /\
  no_ws s = true.
Proof.
  unfold sig_field_ok, no_ws. intros H. apply andb_prop in H as [Hn H].
  split; [apply negb_true_iff, String.eqb_neq in Hn; exact Hn|].
  rewrite forallb_forall in H.
  split; [|split]; apply forallb_forall; intros x Hx; specialize (H x Hx);
    apply andb_prop in H as [H H3]; apply andb_prop in H as [H1 H2]; assumption.
Qed.

Lemma forallb_app_ascii (f : Ascii.ascii -> bool) (a b : string) :
  forallb f (list_ascii_of_string (a ++ b)) =
  forallb f (list_ascii_of_string a) && forallb f (list_ascii_of_string b).
Proof. rewrite list_ascii_app. apply forallb_app. Qed.

Lemma parse_header_core (t v1 : string) :
  sig_field_ok t = true -> sig_field_ok v1 = true ->
  parseCalendlySignatureHeader ("t=" ++ t ++ ",v1=" ++ v1)%string = Some (t, v1).
Proof.
  intros Ht Hv.
  destruct (sig_field_parts t Ht) as [Htn [Htc [Hte Htw]]].
  destruct (sig_field_parts v1 Hv) as [Hvn [Hvc [Hve Hvw]]].
  unfold parseCalendlySignatureHeader.
  change ("t=" ++ t ++ ",v1=" ++ v1)%string
    with (("t=" ++ t) ++ String ","%char ("v1=" ++ v1))%string.
  rewrite split_on_app by (rewrite forallb_app_ascii, Htc; reflexivity).
  rewrite (split_on_none _ ("v1=" ++ v1)) by (rewrite forallb_app_ascii, Hvc; reflexivity).
  cbn [map]. rewrite !trim_no_ws by (unfold no_ws; rewrite forallb_app_ascii;
    unfold no_ws in Htw, Hvw; rewrite ?Htw, ?Hvw; reflexivity).
  cbn [fold_left]. unfold parse_part.
  change ("t=" ++ t)%string with ("t" ++ String "="%char t)%string.
  change ("v1=" ++ v1)%string with ("v1" ++ String "="%char v1)%string.
  rewrite !split_on_app by reflexivity.
  rewrite (split_on_none _ t Hte), (split_on_none _ v1 Hve).
  cbn [String.eqb join].
  rewrite (trim_no_ws t Htw), (trim_no_ws v1 Hvw).
  change (trim "t") with "t". change (trim "v1") with "v1".
  unfold map_get. cbn. apply String.eqb_neq in Htn. apply String.eqb_neq in Hvn.
  rewrite Htn, Hvn. reflexivity.
Qed.


Lemma constantTimeEqual_refl (a : string) : constantTimeEqual a a = true.
Proof. unfold constantTimeEqual. rewrite Nat.eqb_refl, xor_or_self. reflexivity. Qed.

(** X20 (calendly-webhook).  A request whose header carries a fresh
    timestamp and the HMAC of timestamp.body under the configured key,
    both header-safe, is accepted. *)
Theorem calendly_signed_request_accepted js hmac key t body now :
  key <> "" -> sig_field_ok t = true ->
  sig_field_ok (hmac key (t ++ "." ++ body)%string) = true ->
  isFreshTimestampSeconds js now t = true ->
  verifyCalendlySignature js hmac (Some key)
    (Some ("t=" ++ t ++ ",v1=" ++ hmac key (t ++ "." ++ body)%string)%string) now body = VOk.
Proof.
  intros Hk Ht Hv Hf. unfold verifyCalendlySignature.
  change (String.eqb ("t=" ++ t ++ ",v1=" ++ hmac key (t ++ "." ++ body)%string) "")
    with false.
  cbn [truthy negb]. apply String.eqb_neq in Hk. rewrite Hk. cbn [negb].
  rewrite (parse_header_core _ _ Ht Hv), Hf. cbn [negb].
  rewrite constantTimeEqual_refl. reflexivity.
Qed.

(** Instances of the further properties. *)

Lemma complete_service_staff_only_witness :
  exists r, complete_service_serve (mkCompleteEnv false false)
              (fun t => if String.eqb t "tok" then Some "U1" else None)
              (fun _ => inr false) (Some "Bearer tok") (Some (Some "B1")) booked_store
            = (CDone r, booked_store) /\
            (code r = 401 \/ code r = 403 \/ code r = 500)%Z.
Proof.
  apply complete_service_staff_only. intros c _. discriminate.
Defined.

Lemma select_error_writes_nothing_witness :
  snd (update_booking_items select_ok_env "U1" "B9" ["I1"] sample_store) = sample_store.
Proof.
  apply select_error_writes_nothing. vm_compute. discriminate.
Defined.

Lemma select_empty_reverts_witness :
  let '(r, st') := update_booking_items select_ok_env "U1" "B1" [] booked_store in
  code r = 200%Z /\
  find_action "B1" st' = Some (mkAction "B1" "U1" pending_confirmation pickup [] []) /\
  forall i, In i (items booked_store) ->
    In (mkItem (item_id i) (item_user_id i)
          (if mem (item_id i) ["I2"] then stored
           else if mem (item_id i) ["I1"] then home
           else item_st i)) (items st').
Proof.
  apply (select_empty_reverts select_ok_env "U1" "B1" booked_store
           (mkAction "B1" "U1" pending_confirmation pickup ["I1"] ["I2"]));
    try reflexivity; try discriminate.
  simpl; tauto.
Defined.

Lemma select_unowned_item_witness :
  let '(r, st') := update_booking_items select_ok_env "U1" "B1" ["I3"] booked_store in
  code r = 200%Z /\
  (exists a, find_action "B1" st' = Some a /\ In "I3" (pickup_item_ids a)) /\
  item_status_of "I3" st' = Some scheduled.
Proof.
  apply (select_unowned_item select_ok_env "U1" "B1" ["I3"] booked_store
           (mkAction "B1" "U1" pending_confirmation pickup ["I1"] ["I2"]) "I3" "U2");
    try reflexivity; try discriminate; try (simpl; tauto).
  simpl. constructor; [simpl; intuition discriminate|].
  constructor; [simpl; intuition discriminate|].
  constructor; [simpl; tauto|constructor].
  simpl; intuition discriminate. simpl; intuition discriminate.
Defined.

Lemma cancel_failure_after_reverts_witness :
  let '(r, st') := booking_cancel (mkCancelEnv false false true) "U1" "B1" booked_store in
  r = mkResponse 500 (BError "Failed to cancel booking") /\
  find_action "B1" st' = Some (mkAction "B1" "U1" pending_confirmation pickup ["I1"] ["I2"]) /\
  In (mkItem "I1" "U1" home) (items st').
Proof.
  apply (cancel_failure_after_reverts (mkCancelEnv false false true) "U1" "B1" booked_store
           (mkAction "B1" "U1" pending_confirmation pickup ["I1"] ["I2"])
           (mkItem "I1" "U1" scheduled));
    try reflexivity; try discriminate; try (simpl; tauto).
  simpl; intuition discriminate.
Defined.

Lemma complete_service_fail_closed_witness :
  exists r, complete_service (mkCompleteEnv true false) "B1" booked_store
            = (CDone r, booked_store) /\ code r = 500%Z.
Proof.
  apply (complete_service_fail_closed (mkCompleteEnv true false) "B1" booked_store
           (mkAction "B1" "U1" pending_confirmation pickup ["I1"] ["I2"]));
    try reflexivity; discriminate.
Defined.


Lemma v10_token_signature_ignored_witness :
  let decode := fun (p : option string) =>
    match p with Some s => if String.eqb s "pay" then inr (Some "U1") else inr None
               | None => inl "" end in
  update_booking_items_v10_serve decode select_ok_env
    (Some ("Bearer " ++ "hdr" ++ "." ++ "pay" ++ "." ++ "forged")%string) "B1" ["I1"]
    sample_store =
  update_booking_items_v10 select_ok_env "U1" "B1" ["I1"] sample_store.
Proof.
  intros decode.
  apply (v10_token_signature_ignored decode select_ok_env "hdr" "pay" "forged" "B1" ["I1"]
           sample_store); reflexivity.
Defined.

Lemma stripe_handlers_no_profile_witness :
  let bs := mkBillingStore
              [mkBillingProfile "U1" (Some "cus_1") (Some "a@x.com") None;
               mkBillingProfile "U2" (Some "cus_1") (Some "b@x.com") None] [] [] in
  let s := mkSubscription "sub_1" "cus_1" "active" None false None None in
  let i := mkInvoice "in_1" "cus_1" in
  let env := mkBillingEnv false false in
  handleSubscriptionChange env s bs = (Returned, bs) /\
  handleSubscriptionDeleted env s bs = (Returned, bs) /\
  handleInvoicePaymentSucceeded env 1700000000 i bs = (Returned, bs) /\
  handleInvoicePaymentFailed env 1700000000 i bs = (Returned, bs).
Proof.
  intros bs s i env.
  apply (stripe_handlers_no_profile env 1700000000 "cus_1" s i bs);
    [vm_compute; discriminate|reflexivity|reflexivity].
Defined.

Lemma stripe_unmatched_event_recorded_witness :
  let i := mkInvoice "in_1" "cus_9" in
  let bs := mkBillingStore [mkBillingProfile "U1" (Some "cus_1") (Some "a@x.com") None] [] [] in
  let env := mkBillingEnv false false in
  let o := fst (handleInvoicePaymentFailed env 1700000000 i bs) in
  let '(r, pst') := stripe_webhook (mkPayEnv false (threw o) false []) "evt_1"
                      (mkPayState [] []) in
  r = mkResponse 200 BOk /\ In "evt_1" (ledger pst') /\
  forall env', checkError env' = false ->
    stripe_webhook env' "evt_1" pst' = (mkResponse 200 BOkDuplicate, pst').
Proof.
  intros i bs env.
  apply (stripe_unmatched_event_recorded env 1700000000 i bs "evt_1" (mkPayState [] []));
    [vm_compute; discriminate|simpl; tauto].
Defined.

Lemma invoice_failed_email_after_update_witness :
  let p := mkBillingProfile "U1" (Some "cus_1") (Some "a@x.com") (Some "Ann") in
  let bs := mkBillingStore [p] [] [] in
  let i := mkInvoice "in_1" "cus_1" in
  let env := mkBillingEnv false false in
  (rpcError env = true -> handleInvoicePaymentFailed env 1700000000 i bs = (Threw, bs)) /\
  (rpcError env = false ->
   exists bs', handleInvoicePaymentFailed env 1700000000 i bs = (Returned, bs') /\
     sub_updates bs' = sub_updates bs ++
       [mkSubUpdate "U1" "past_due" None None None None None None (Some 1700000000%Z)] /\
     bmails bs' = bmails bs ++ [(payment_failed, "a@x.com", Some "Ann")]).
Proof.
  intros p bs i env.
  apply (invoice_failed_email_after_update env 1700000000 i bs p); reflexivity.
Defined.


Lemma invitee_created_no_booking_witness :
  let st := mkCalStore [] [mkCalProfile "U1" "a@x.com" None "active"] 0 [] in
  let '(o, st') := handleInviteeCreated [] (cal_env_auth None) invitee_ab st in
  o = Returned /\ cactions st' = cactions st /\ cprofiles st' = cprofiles st /\
  next_id st' = next_id st.
Proof.
  intros st.
  apply (invitee_created_no_booking [] (cal_env_auth None) invitee_ab st).
  right. split; reflexivity.
Defined.

Lemma invitee_created_revives_witness :
  let a := mkCalAction 0 "U1" pickup (Some "uri1") "s0" "e0" canceled None
             (mkInviteePayload None None None None) ["I1"] [] in
  let p := mkCalProfile "U1" "a_b@x.com" (Some "addr") "active" in
  let st := mkCalStore [a] [p] 1 [] in
  let '(o, st') := handleInviteeCreated [] (cal_env_auth None) invitee_ab st in
  o = Returned /\
  filter (has_uri "uri1") (cactions st') =
    [mkCalAction 0 "U1" pickup (Some "uri1") "s1" "e1" pending_items (Some "addr")
       invitee_ab ["I1"] []] /\
  map ca_id (cactions st') = map ca_id (cactions st) /\ next_id st' = next_id st.
Proof.
  intros a p st.
  apply (invitee_created_revives [] (cal_env_auth None) invitee_ab st a p); reflexivity.
Defined.

Lemma invitee_canceled_any_status_witness :
  let a := mkCalAction 0 "U1" pickup (Some "uri1") "s0" "e0" completed None
             invitee_ab [] [] in
  let b := mkCalAction 1 "U1" pickup (Some "uri2") "s0" "e0" confirmed None
             invitee_ab [] [] in
  let st := mkCalStore [a; b] [] 2 [] in
  let '(o, st') := handleInviteeCanceled (cal_env_auth None) invitee_ab st in
  o = Returned /\
  In (mkCalAction 0 "U1" pickup (Some "uri1") "s0" "e0" canceled None invitee_ab [] [])
     (cactions st') /\
  forall x, In x (cactions st) -> ca_id x <> 0%nat -> In x (cactions st').
Proof.
  intros a b st.
  apply (invitee_canceled_any_status (cal_env_auth None) invitee_ab st a); reflexivity.
Defined.

Lemma invitee_created_underscore_match_witness :
  let st := mkCalStore [] [mkCalProfile "U2" "AXB@x.com" None "active"] 0 [] in
  let '(o, st') := handleInviteeCreated [] (cal_env_auth None) invitee_ab st in
  o = Returned /\
  exists x, In x (cactions st') /\ has_uri "uri1" x = true /\ ca_user_id x = "U2".
Proof.
  intros st.
  apply (invitee_created_underscore_match [] (cal_env_auth None) invitee_ab st
           (list_ascii_of_string "a") (list_ascii_of_string "b@x.com") "x"%char
           "AXB@x.com" "U2" None "active"); reflexivity.
Defined.

Lemma invitee_created_resets_subscription_witness :
  let p := mkCalProfile "A" "a_b@x.com" None "active" in
  let st := mkCalStore [] [p; mkCalProfile "B" "axb@x.com" None "active"] 0 [] in
  In (mkCalProfile "A" "a_b@x.com" None "inactive")
     (cprofiles (snd (handleInviteeCreated [] (cal_env_auth (Some "A")) invitee_ab st))).
Proof.
  intros p st.
  apply (invitee_created_resets_subscription [] (cal_env_auth (Some "A")) invitee_ab st "A" p);
    try reflexivity; try discriminate.
  simpl; tauto.
Defined.


Lemma calendly_signed_request_accepted_witness :
  let js := fun t => if String.eqb t "1700000000" then Some (inject_Z 1700000000)
                     else None in
  let hmac := fun (k p : string) => if String.eqb k "secret" then "5f3a" else "0000" in
  verifyCalendlySignature js hmac (Some "secret")
    (Some ("t=" ++ "1700000000" ++ ",v1=" ++ hmac "secret" ("1700000000" ++ "." ++ "{}"))%string)
    1700000100 "{}" = VOk.
Proof.
  intros js hmac.
  apply calendly_signed_request_accepted; [discriminate|reflexivity..].
Defined.
